(** * The per-thread control layer of the NativeAOT runtime (thread.inl)

    A shallow embedding of [src/coreclr/nativeaot/Runtime/thread.inl]:
    the cooperative/preemptive transitions of [Thread], the combined
    allocation limit of [ee_alloc_context] and the list of
    [GCFrameRegistration] nodes.

    Pointers and [size_t] values are [Z] reduced modulo [2 ^ ptr_bits];
    [uint32_t] values are [Z] reduced modulo [2 ^ 32].  Objects reached
    through a pointer (the frames the callers pass in) live in finite maps
    keyed by their address.  Every method is a function in a small monad
    that threads the program state and stops on a failed [ASSERT] or on an
    access through a bad pointer. *)

From Stdlib Require Import ZArith Bool List Lia Reals Lra.
From stdpp Require Import base option gmap.
Import ListNotations.

Open Scope Z_scope.

(** ** Machine integers *)

Definition ptr := Z.
Definition NULL : ptr := 0.

Definition wrap (bits : Z) (z : Z) : Z := z mod 2 ^ bits.
Definition uint32 (z : Z) : Z := wrap 32 z.
Definition UINT32_MAX : Z := 4294967295.

(** thread.inl:8 *)
Definition SamplingDistributionMean : Z := uint32 (100 * 1024).

(** ** Data *)

(** [ee_alloc_context]: the two leading fields of the embedded
    [gc_alloc_context] (read through [_thread_inl_gc_alloc_context]) and the
    combined limit. *)
Record ee_alloc_context := mk_ee_alloc_context {
  alloc_ptr : ptr;
  alloc_limit : ptr;
  combined_limit : ptr
}.

Record Thread := mkThread {
  m_pTransitionFrame : ptr;
  m_pDeferredTransitionFrame : ptr;
  m_pStackLow : ptr;
  m_pStackHigh : ptr;
  m_ThreadStateFlags : Z;
  m_pGCFrameRegistrations : ptr;
  m_pThreadStressLog : ptr;
  m_eeAllocContext : ee_alloc_context
}.

(** The objects behind the frame pointers, one map per field the file
    touches.  A key is present once the field has been written. *)
Record Memory := mkMemory {
  (** [PInvokeTransitionFrame::m_pThread] *)
  frame_thread : gmap Z Z;
  (** [ReversePInvokeFrame::m_savedPInvokeTransitionFrame] *)
  frame_saved : gmap Z Z;
  (** [GCFrameRegistration::m_pNext] *)
  reg_next : gmap Z Z
}.

(** What the outside can observe of a run, in program order: the stores
    into frames, the stores into [m_pTransitionFrame] (volatile or plain),
    the reads of the trap flag and the calls to the wait primitive. *)
Inductive Event :=
| EvFrameThread (pFrame self : ptr)
| EvFrameSaved (pFrame v : ptr)
| EvVolatileStore (v : ptr)
| EvPlainStore (v : ptr)
| EvTrapRead (b : bool)
| EvWaitForGC2 (pFrame : ptr).

(** The program state.  [w_trap k] is what the [k]-th call of
    [ThreadStore::IsTrapThreadsRequested] answers (another thread may flip
    the flag between two reads); [w_rng k] is the [k]-th output of the
    thread's generator. *)
Record World := mkWorld {
  w_this : ptr;
  w_thread : Thread;
  w_mem : Memory;
  w_trap : nat -> bool;
  w_trapReads : nat;
  w_rng : nat -> Z;
  w_rngDraws : nat;
  w_trace : list Event
}.

Definition set_thread (t : Thread) (w : World) : World :=
  mkWorld (w_this w) t (w_mem w) (w_trap w) (w_trapReads w)
          (w_rng w) (w_rngDraws w) (w_trace w).

Definition set_mem (m : Memory) (w : World) : World :=
  mkWorld (w_this w) (w_thread w) m (w_trap w) (w_trapReads w)
          (w_rng w) (w_rngDraws w) (w_trace w).

Definition emit (e : Event) (w : World) : World :=
  mkWorld (w_this w) (w_thread w) (w_mem w) (w_trap w) (w_trapReads w)
          (w_rng w) (w_rngDraws w) (w_trace w ++ [e]).

Definition with_transitionFrame (v : ptr) (t : Thread) : Thread :=
  mkThread v (m_pDeferredTransitionFrame t) (m_pStackLow t) (m_pStackHigh t)
           (m_ThreadStateFlags t) (m_pGCFrameRegistrations t)
           (m_pThreadStressLog t) (m_eeAllocContext t).

Definition with_gcFrameRegistrations (v : ptr) (t : Thread) : Thread :=
  mkThread (m_pTransitionFrame t) (m_pDeferredTransitionFrame t)
           (m_pStackLow t) (m_pStackHigh t) (m_ThreadStateFlags t) v
           (m_pThreadStressLog t) (m_eeAllocContext t).

Definition with_eeAllocContext (c : ee_alloc_context) (t : Thread) : Thread :=
  mkThread (m_pTransitionFrame t) (m_pDeferredTransitionFrame t)
           (m_pStackLow t) (m_pStackHigh t) (m_ThreadStateFlags t)
           (m_pGCFrameRegistrations t) (m_pThreadStressLog t) c.

Definition with_combined_limit (v : ptr) (c : ee_alloc_context) :=
  mk_ee_alloc_context (alloc_ptr c) (alloc_limit c) v.

Definition with_frame_thread (m : gmap Z Z) (mem : Memory) : Memory :=
  mkMemory m (frame_saved mem) (reg_next mem).
Definition with_frame_saved (m : gmap Z Z) (mem : Memory) : Memory :=
  mkMemory (frame_thread mem) m (reg_next mem).
Definition with_reg_next (m : gmap Z Z) (mem : Memory) : Memory :=
  mkMemory (frame_thread mem) (frame_saved mem) m.

(** ** The monad *)

Inductive Outcome (A : Type) :=
| Done (a : A) (w : World)   (** the call returned [a] *)
| Fatal (w : World)          (** a failed [ASSERT] stopped the process *)
| Fault (w : World).         (** access through a null or unwritten pointer *)
Arguments Done {A} a w.
Arguments Fatal {A} w.
Arguments Fault {A} w.

Definition M (A : Type) : Type := World -> Outcome A.

#[global] Instance M_ret : MRet M := fun A a w => Done a w.

#[global] Instance M_bind : MBind M := fun A B k c w =>
  match c w with
  | Done a w' => k a w'
  | Fatal w' => Fatal w'
  | Fault w' => Fault w'
  end.

Definition get_thread : M Thread := fun w => Done (w_thread w) w.
Definition get_this : M ptr := fun w => Done (w_this w) w.
Definition put_thread (t : Thread) : M unit := fun w => Done tt (set_thread t w).
Definition log (e : Event) : M unit := fun w => Done tt (emit e w).
Definition fatal {A} : M A := fun w => Fatal w.
Definition fault {A} : M A := fun w => Fault w.

(** [p->field = v]: the caller owns the storage behind [p]; only a null
    [p] cannot be written. *)
Definition store_field (get : Memory -> gmap Z Z)
    (set : gmap Z Z -> Memory -> Memory) (p v : ptr) : M unit :=
  fun w => if p =? NULL then Fault w
           else Done tt (set_mem (set (<[p := v]> (get (w_mem w))) (w_mem w)) w).

(** [p->field]: defined once the field has been written. *)
Definition load_field (get : Memory -> gmap Z Z) (p : ptr) : M ptr :=
  fun w => match get (w_mem w) !! p with
           | Some v => Done v w
           | None => Fault w
           end.

(** [ThreadStore::IsTrapThreadsRequested()], a racy read of the global
    suspension flag: the next answer of [w_trap]. *)
Definition IsTrapThreadsRequested : M bool :=
  fun w =>
    let b := w_trap w (w_trapReads w) in
    Done b (mkWorld (w_this w) (w_thread w) (w_mem w) (w_trap w)
                    (S (w_trapReads w)) (w_rng w) (w_rngDraws w)
                    (w_trace w ++ [EvTrapRead b])).

(** [minipal_xoshiro128pp_next(&random_state)]: the next 32-bit output. *)
Definition minipal_xoshiro128pp_next : M Z :=
  fun w =>
    Done (uint32 (w_rng w (w_rngDraws w)))
         (mkWorld (w_this w) (w_thread w) (w_mem w) (w_trap w)
                  (w_trapReads w) (w_rng w) (S (w_rngDraws w)) (w_trace w)).

(** ** Double arithmetic

    The sampling budget goes through [double].  The operations the file
    uses form an interface, so that whatever the code does on integers and
    pointers is proved for every implementation of it. *)
Class DoubleOps := {
  double : Type;
  d_of_Z : Z -> double;               (** integer to [double] conversion *)
  d_add : double -> double -> double;
  d_sub : double -> double -> double;
  d_mul : double -> double -> double;
  d_div : double -> double -> double;
  d_neg : double -> double;
  d_log : double -> double;           (** [log] of the C library *)
  d_to_Z : double -> Z                (** the integer a cast to an integer
                                          type keeps; the target type's
                                          width is applied by the caller *)
}.

(** ** The methods of thread.inl *)

Section Runtime.

(** Modelled from the spec: the ASSERT macro, whose definition is outside
    this file ("guarded by assertions in a debug build", "rejected (fatal)
    in a debug build", "only via an assertion, not a hard check"): in a
    debug build a false condition stops the process, in a release build
    the condition is not evaluated. *)
Variable debug : bool.

(** Width of a pointer and of [size_t] on the target. *)
Variable ptr_bits : Z.

(** Members of [ThreadStateFlags], declared with the class. *)
Variables TSF_Attached TSF_DoNotTriggerGc : Z.

(** [Thread::IsGCSpecial], defined with the class. *)
Variable IsGCSpecial : Thread -> bool.

(** The state in which [RhpWaitForGC2] hands the thread back. *)
Variable RhpWaitForGC2_returns : ptr -> Thread -> Memory -> Thread * Memory.

Context {dbl : DoubleOps}.

Definition handed_back (pFrame : ptr) : M unit :=
  fun w =>
    let r := RhpWaitForGC2_returns pFrame (w_thread w) (w_mem w) in
    Done tt (set_mem (snd r) (set_thread (fst r) w)).

Definition ASSERT (cond : M bool) : M unit :=
  if debug then b ← cond; if b : bool then mret tt else fatal
  else mret tt.

(** *** ee_alloc_context *)

(** thread.inl:66 *)
Definition NextDouble : M double :=
  value ← minipal_xoshiro128pp_next;
  mret (d_mul (d_of_Z value)
              (d_div (d_of_Z 1) (d_add (d_of_Z UINT32_MAX) (d_of_Z 1)))).

(** thread.inl:57 *)
Definition ComputeGeometricRandom : M Z :=
  probability ← NextDouble;
  let threshold :=
    uint32 (d_to_Z (d_mul (d_neg (d_log (d_sub (d_of_Z 1) probability)))
                          (d_of_Z SamplingDistributionMean))) in
  mret threshold.

(** thread.inl:37 *)
Definition UpdateCombinedLimit (samplingEnabled : bool) : M unit :=
  if negb samplingEnabled then
    t ← get_thread;
    let c := m_eeAllocContext t in
    put_thread (with_eeAllocContext (with_combined_limit (alloc_limit c) c) t)
  else
    r ← ComputeGeometricRandom;
    let samplingBudget := wrap ptr_bits r in
    t ← get_thread;
    let c := m_eeAllocContext t in
    let size := wrap ptr_bits (alloc_limit c - alloc_ptr c) in
    put_thread
      (with_eeAllocContext
         (with_combined_limit
            (wrap ptr_bits (alloc_ptr c + Z.min samplingBudget size)) c) t).

Definition GetCombinedLimit : M ptr :=
  t ← get_thread; mret (combined_limit (m_eeAllocContext t)).

(** *** Thread *)

(** thread.inl:92 *)
Definition IsWithinStackBounds (p : ptr) : M bool :=
  ASSERT (t ← get_thread;
          mret (negb (m_pStackLow t =? 0) && negb (m_pStackHigh t =? 0)));;
  t ← get_thread;
  mret ((m_pStackLow t <=? p) && (p <? m_pStackHigh t)).

(** thread.inl:117 *)
Definition PushGCFrameRegistration (pRegistration : ptr) : M unit :=
  t ← get_thread;
  store_field reg_next with_reg_next pRegistration (m_pGCFrameRegistrations t);;
  t ← get_thread;
  put_thread (with_gcFrameRegistrations pRegistration t).

(** thread.inl:123 *)
Definition PopGCFrameRegistration (pRegistration : ptr) : M unit :=
  ASSERT (t ← get_thread; mret (m_pGCFrameRegistrations t =? pRegistration));;
  next ← load_field reg_next pRegistration;
  t ← get_thread;
  put_thread (with_gcFrameRegistrations next t).

(** thread.inl:139 *)
Definition IsStateSet (t : Thread) (flags : Z) : bool :=
  Z.land (m_ThreadStateFlags t) (uint32 flags) =? uint32 flags.

(** thread.inl:144 *)
Definition IsDoNotTriggerGcSet (t : Thread) : bool :=
  IsStateSet t TSF_DoNotTriggerGc.

(** thread.inl:149; the assertion there compares the current thread with
    [this], which are one thread here. *)
Definition IsCurrentThreadInCooperativeMode (t : Thread) : bool :=
  m_pTransitionFrame t =? NULL.

(** thread.inl:158, on [&m_pTransitionFrame] *)
Definition VolatileStoreWithoutBarrier (val : ptr) : M unit :=
  t ← get_thread;
  put_thread (with_transitionFrame val t);;
  log (EvVolatileStore val).

(** thread.inl:163 *)
Definition InlineReversePInvokeReturn (pFrame : ptr) : M unit :=
  saved ← load_field frame_saved pFrame;
  VolatileStoreWithoutBarrier saved.

(** thread.inl:169 *)
Definition InlinePInvoke (pFrame : ptr) : M unit :=
  ASSERT (t ← get_thread;
          if negb (IsDoNotTriggerGcSet t) then mret true
          else IsTrapThreadsRequested);;
  this ← get_this;
  store_field frame_thread with_frame_thread pFrame this;;
  log (EvFrameThread pFrame this);;
  VolatileStoreWithoutBarrier pFrame.

(** thread.inl:177, an entry point of the runtime's assembly helpers *)
Definition RhpWaitForGC2 (pFrame : ptr) : M unit :=
  log (EvWaitForGC2 pFrame);;
  handed_back pFrame.

(** thread.inl:179 *)
Definition InlinePInvokeReturn (pFrame : ptr) : M unit :=
  VolatileStoreWithoutBarrier NULL;;
  trap ← IsTrapThreadsRequested;
  if trap : bool then RhpWaitForGC2 pFrame else mret tt.

(** thread.inl:189 *)
Definition InlineTryFastReversePInvoke (pFrame : ptr) : M bool :=
  t ← get_thread;
  store_field frame_saved with_frame_saved pFrame (m_pTransitionFrame t);;
  log (EvFrameSaved pFrame (m_pTransitionFrame t));;
  t ← get_thread;
  if IsDoNotTriggerGcSet t then
    ASSERT IsTrapThreadsRequested;;
    mret true
  else if negb (IsStateSet t TSF_Attached) then
    mret false
  else if IsCurrentThreadInCooperativeMode t then
    mret false
  else
    ASSERT (t ← get_thread; mret (negb (IsGCSpecial t)));;
    VolatileStoreWithoutBarrier NULL;;
    trap ← IsTrapThreadsRequested;
    if trap : bool then
      saved ← load_field frame_saved pFrame;
      t ← get_thread;
      put_thread (with_transitionFrame saved t);;
      log (EvPlainStore saved);;
      mret false
    else
      mret true.

End Runtime.

Arguments ASSERT debug cond _ /.
Arguments IsStateSet t flags /.
Arguments IsDoNotTriggerGcSet TSF_DoNotTriggerGc t /.
Arguments IsCurrentThreadInCooperativeMode t /.

(** ** Instances of the double interface *)

(** The integer part a C cast keeps: truncation toward zero. *)
Definition Rtrunc (x : R) : Z :=
  if Rle_dec 0 x then Int_part x else - Int_part (- x).

(** Doubles idealised as real numbers: every operation exact, [log] the
    natural logarithm. *)
Definition RealDouble : DoubleOps := {|
  double := R;
  d_of_Z := IZR;
  d_add := Rplus;
  d_sub := Rminus;
  d_mul := Rmult;
  d_div := Rdiv;
  d_neg := Ropp;
  d_log := ln;
  d_to_Z := Rtrunc
|}.

(** A stand-in that makes every cast yield [b], to run the integer part of
    the code on a chosen budget. *)
Definition FixedBudget (b : Z) : DoubleOps := {|
  double := unit;
  d_of_Z := fun _ => tt;
  d_add := fun _ _ => tt;
  d_sub := fun _ _ => tt;
  d_mul := fun _ _ => tt;
  d_div := fun _ _ => tt;
  d_neg := fun _ => tt;
  d_log := fun _ => tt;
  d_to_Z := fun _ => b
|}.

(** ** Sample states *)

Definition sample_context (p l : ptr) : ee_alloc_context :=
  mk_ee_alloc_context p l 0.

Definition sample_thread (tf : ptr) (flags : Z) (c : ee_alloc_context) : Thread :=
  mkThread tf 0 4096 8192 flags 0 0 c.

Definition empty_memory : Memory := mkMemory ∅ ∅ ∅.

Definition sample_world (t : Thread) (trap : bool) : World :=
  mkWorld 77 t empty_memory (fun _ => trap) 0 (fun _ => 1) 0 [].

(** Flag values for the sample runs. *)
Definition flag_Attached : Z := 1.
Definition flag_DoNotTriggerGc : Z := 16.
Definition flag_GcSpecial : Z := 32.
Definition sample_IsGCSpecial (t : Thread) : bool := IsStateSet t flag_GcSpecial.
Definition sample_wait (pFrame : ptr) (t : Thread) (m : Memory) : Thread * Memory :=
  (t, m).

Definition outcome_thread {A} (o : Outcome A) : option Thread :=
  match o with Done _ w => Some (w_thread w) | _ => None end.

Definition outcome_value {A} (o : Outcome A) : option A :=
  match o with Done a _ => Some a | _ => None end.

Definition outcome_trace {A} (o : Outcome A) : list Event :=
  match o with Done _ w | Fatal w | Fault w => w_trace w end.

Definition is_fatal {A} (o : Outcome A) : bool :=
  match o with Fatal _ => true | _ => false end.

(** ** The registration list *)

(** [reg_chain next head l]: following [m_pNext] from [head] visits exactly
    the nodes of [l] and then reaches null. *)
Fixpoint reg_chain (next : gmap Z Z) (head : ptr) (l : list ptr) : Prop :=
  match l with
  | [] => head = NULL
  | n :: l' =>
      head = n /\ n <> NULL /\
      exists nx, next !! n = Some nx /\ reg_chain next nx l'
  end.

(** The walk the collector does, head to tail, for at most [fuel] nodes. *)
Fixpoint registrations (fuel : nat) (next : gmap Z Z) (head : ptr) : list ptr :=
  match fuel with
  | O => []
  | S k =>
      if head =? NULL then []
      else match next !! head with
           | Some nx => head :: registrations k next nx
           | None => [head]
           end
  end.

Definition world_registrations (fuel : nat) (w : World) : list ptr :=
  registrations fuel (reg_next (w_mem w)) (m_pGCFrameRegistrations (w_thread w)).

Inductive RegOp :=
| OpPush (n : ptr)
| OpPop (n : ptr).

Definition run_op (debug : bool) (o : RegOp) : M unit :=
  match o with
  | OpPush n => PushGCFrameRegistration n
  | OpPop n => PopGCFrameRegistration debug n
  end.

Fixpoint run_ops (debug : bool) (ops : list RegOp) : M unit :=
  match ops with
  | [] => mret tt
  | o :: rest => run_op debug o;; run_ops debug rest
  end.

(** Strictly nested registration scopes over the live nodes [l]: every
    scope registers a node that is not live, runs nested scopes and
    unregisters that node. *)
Inductive Nested : list ptr -> list RegOp -> Prop :=
| Nested_nil l : Nested l []
| Nested_scope l n inner rest :
    n <> NULL -> ~ In n l ->
    Nested (n :: l) inner -> Nested l rest ->
    Nested l (OpPush n :: inner ++ OpPop n :: rest).

(** ** The sampling budget over the reals *)

(** The uniform draw behind the generator output [value]. *)
Definition uniform_of (value : Z) : R := (IZR value / 2 ^ 32)%R.

(** The product the code casts, over the reals. *)
Definition scaled_log (value : Z) : R :=
  (- ln (1 - uniform_of value) * 102400)%R.

Definition Rceil (x : R) : Z := - Int_part (- x).

(** The budget as the specification words it:
    [ceil(-ln(1-U) * mean)]. *)
Definition spec_budget (value : Z) : Z := Rceil (scaled_log value).

(** The state right after [PushGCFrameRegistration n]. *)
Definition pushed (n : ptr) (w : World) : World :=
  set_thread (with_gcFrameRegistrations n (w_thread w))
    (set_mem
       (with_reg_next
          (<[n := m_pGCFrameRegistrations (w_thread w)]> (reg_next (w_mem w)))
          (w_mem w)) w).

(** The state right after [pFrame->m_savedPInvokeTransitionFrame =
    m_pTransitionFrame]. *)
Definition saved_world (pFrame : ptr) (w : World) : World :=
  emit (EvFrameSaved pFrame (m_pTransitionFrame (w_thread w)))
    (set_mem
       (with_frame_saved
          (<[pFrame := m_pTransitionFrame (w_thread w)]> (frame_saved (w_mem w)))
          (w_mem w)) w).

(** The state right after one read of the trap flag. *)
Definition trap_read_world (w : World) : World :=
  mkWorld (w_this w) (w_thread w) (w_mem w) (w_trap w) (S (w_trapReads w))
          (w_rng w) (w_rngDraws w)
          (w_trace w ++ [EvTrapRead (w_trap w (w_trapReads w))]).

Definition next_trap (w : World) : bool := w_trap w (w_trapReads w).

(** Sample threads: every one has stack bounds 4096 and 8192 and an empty
    allocation context; they differ in the transition frame and the flags. *)
Definition gc_special_world : World :=
  sample_world (sample_thread 300 (flag_Attached + flag_GcSpecial)
                  (sample_context 0 0)) false.

Definition cooperative_world : World :=
  sample_world (sample_thread NULL flag_Attached (sample_context 0 0)) false.

Definition preemptive_world (trap : bool) : World :=
  sample_world (sample_thread 300 flag_Attached (sample_context 0 0)) trap.

Definition do_not_trigger_world (trap : bool) : World :=
  sample_world (sample_thread 300 (flag_Attached + flag_DoNotTriggerGc)
                  (sample_context 0 0)) trap.

Definition sampling_world : World :=
  sample_world (sample_thread 0 flag_Attached (sample_context 1000 1000000)) false.

(** ** The remaining methods of thread.inl *)

Definition with_deferredTransitionFrame (v : ptr) (t : Thread) : Thread :=
  mkThread (m_pTransitionFrame t) v (m_pStackLow t) (m_pStackHigh t)
           (m_ThreadStateFlags t) (m_pGCFrameRegistrations t)
           (m_pThreadStressLog t) (m_eeAllocContext t).

Definition with_threadStressLog (v : ptr) (t : Thread) : Thread :=
  mkThread (m_pTransitionFrame t) (m_pDeferredTransitionFrame t)
           (m_pStackLow t) (m_pStackHigh t) (m_ThreadStateFlags t)
           (m_pGCFrameRegistrations t) v (m_eeAllocContext t).

Section Deferred.

Variable debug : bool.

(** [Thread::IsHijackTarget(pTransitionFrame->m_RIP)]: the field and the
    function are declared with the class; the answer may depend on the
    whole state. *)
Variable IsHijackTargetRIP : World -> ptr -> bool.

(** thread.inl:74; the first assertion compares the current thread with
    [this], which are one thread here. *)
Definition SetDeferredTransitionFrame (pTransitionFrame : ptr) : M unit :=
  ASSERT debug (t ← get_thread; mret (IsCurrentThreadInCooperativeMode t));;
  ASSERT debug (fun w => Done (negb (IsHijackTargetRIP w pTransitionFrame)) w);;
  t ← get_thread;
  put_thread (with_deferredTransitionFrame pTransitionFrame t).

(** thread.inl:84 *)
Definition DeferTransitionFrame : M unit :=
  ASSERT debug (t ← get_thread;
                mret (negb (IsCurrentThreadInCooperativeMode t)));;
  t ← get_thread;
  put_thread (with_deferredTransitionFrame (m_pTransitionFrame t) t).

(** thread.inl:98; the two out-parameters are the components of the
    result. *)
Definition GetStackBounds : M (ptr * ptr) :=
  ASSERT debug (t ← get_thread;
                mret (negb (m_pStackLow t =? 0) && negb (m_pStackHigh t =? 0)));;
  t ← get_thread;
  mret (m_pStackLow t, m_pStackHigh t).

(** thread.inl:106 *)
Definition SetThreadStressLog (ptsl : ptr) : M unit :=
  t ← get_thread;
  put_thread (with_threadStressLog ptsl t).

(** thread.inl:112 *)
Definition GetThreadStressLog : M ptr :=
  t ← get_thread; mret (m_pThreadStressLog t).

End Deferred.

(** ** Sequences of boundary crossings *)

Inductive CrossOp :=
| OpPInvoke (pFrame : ptr)              (** [InlinePInvoke] *)
| OpPInvokeReturn (pFrame : ptr)        (** [InlinePInvokeReturn] *)
| OpReversePInvoke (pFrame : ptr)       (** [InlineTryFastReversePInvoke] *)
| OpReversePInvokeReturn (pFrame : ptr) (** [InlineReversePInvokeReturn] *).

Section Crossings.

Variable debug : bool.
Variables TSF_Attached TSF_DoNotTriggerGc : Z.
Variable IsGCSpecial : Thread -> bool.
Variable RhpWaitForGC2_returns : ptr -> Thread -> Memory -> Thread * Memory.

(** Runs the calls in order.  A fast reverse entry that declines ends the
    run with [false]: its caller goes to the slow path, which is not in
    this file. *)
Fixpoint run_crossings (ops : list CrossOp) : M bool :=
  match ops with
  | [] => mret true
  | OpPInvoke f :: rest =>
      InlinePInvoke debug TSF_DoNotTriggerGc f;; run_crossings rest
  | OpPInvokeReturn f :: rest =>
      InlinePInvokeReturn RhpWaitForGC2_returns f;; run_crossings rest
  | OpReversePInvoke r :: rest =>
      ok ← InlineTryFastReversePInvoke debug TSF_Attached TSF_DoNotTriggerGc
             IsGCSpecial r;
      if ok : bool then run_crossings rest else mret false
  | OpReversePInvokeReturn r :: rest =>
      InlineReversePInvokeReturn r;; run_crossings rest
  end.

End Crossings.

(** [Crossings live tf ops]: [ops] is a properly nested sequence of
    crossings for a thread whose transition frame is [tf] at its start.
    Managed code (null [tf]) calls out with a frame and returns through the
    same frame; native code (non-null [tf]) calls back with a reverse frame
    that is not in use ([live]) and returns through it. *)
Inductive Crossings : list ptr -> ptr -> list CrossOp -> Prop :=
| Crossings_nil live tf : Crossings live tf []
| Crossings_pinvoke live f native rest :
    f <> NULL ->
    Crossings live f native ->
    Crossings live NULL rest ->
    Crossings live NULL (OpPInvoke f :: native ++ OpPInvokeReturn f :: rest)
| Crossings_reverse live tf r managed rest :
    tf <> NULL -> r <> NULL -> ~ In r live ->
    Crossings (r :: live) NULL managed ->
    Crossings live tf rest ->
    Crossings live tf
      (OpReversePInvoke r :: managed ++ OpReversePInvokeReturn r :: rest).

(** No suspension is requested from now on. *)
Definition quiet (w : World) : Prop :=
  forall k : nat, (w_trapReads w <= k)%nat -> w_trap w k = false.

(** What a nested sequence leaves in place. *)
Definition preserved (live : list ptr) (w w' : World) : Prop :=
  w_thread w' = w_thread w /\
  w_this w' = w_this w /\
  w_trap w' = w_trap w /\
  (w_trapReads w <= w_trapReads w')%nat /\
  forall r, In r live ->
    frame_saved (w_mem w') !! r = frame_saved (w_mem w) !! r.

(** The states after the single calls on their plain paths. *)
Definition pinvoke_world (pFrame : ptr) (w : World) : World :=
  emit (EvVolatileStore pFrame)
    (set_thread (with_transitionFrame pFrame (w_thread w))
       (emit (EvFrameThread pFrame (w_this w))
          (set_mem
             (with_frame_thread
                (<[pFrame := w_this w]> (frame_thread (w_mem w))) (w_mem w))
             w))).

Definition cooperative_checked_world (w : World) : World :=
  trap_read_world
    (emit (EvVolatileStore NULL)
       (set_thread (with_transitionFrame NULL (w_thread w)) w)).

Definition sample_hijack (w : World) (pFrame : ptr) : bool := false.

(** ** Scenarios *)

(** The scenario of the allocation context with [alloc_ptr = 1000] and
    [alloc_limit = 1000000]. *)
Example scenario_sampling_disabled :
  option_map (fun t => combined_limit (m_eeAllocContext t))
    (outcome_thread
       (UpdateCombinedLimit 64 (dbl := FixedBudget 500) false
          (sample_world (sample_thread 0 1 (sample_context 1000 1000000)) false)))
  = Some 1000000.
Proof. reflexivity. Qed.

Example scenario_sampling_budget_500 :
  option_map (fun t => combined_limit (m_eeAllocContext t))
    (outcome_thread
       (UpdateCombinedLimit 64 (dbl := FixedBudget 500) true
          (sample_world (sample_thread 0 1 (sample_context 1000 1000000)) false)))
  = Some 1500.
Proof. reflexivity. Qed.

Example scenario_budget_beyond_region :
  option_map (fun t => combined_limit (m_eeAllocContext t))
    (outcome_thread
       (UpdateCombinedLimit 64 (dbl := FixedBudget 4000000000) true
          (sample_world (sample_thread 0 1 (sample_context 1000 1000000)) false)))
  = Some 1000000.
Proof. reflexivity. Qed.

Example scenario_stack_bounds :
  map (fun p => outcome_value
         (IsWithinStackBounds true p
            (sample_world (sample_thread 0 1 (sample_context 0 0)) false)))
      [4095; 4096; 8191; 8192]
  = [Some false; Some true; Some true; Some false].
Proof. reflexivity. Qed.

(** ** Proof support *)

Ltac run :=
  cbv beta delta
    [mbind mret M_bind M_ret get_thread get_this put_thread log fatal fault
     store_field load_field ASSERT handed_back] in *;
  cbn beta iota in *.

Lemma wrap_small bits z : 0 <= z < 2 ^ bits -> wrap bits z = z.
Proof. intros H. unfold wrap. apply Z.mod_small. exact H. Qed.

Lemma wrap_nonneg bits z : 0 < 2 ^ bits -> 0 <= wrap bits z.
Proof. intros H. unfold wrap. apply Z.mod_pos_bound. exact H. Qed.

Lemma uint32_range z : 0 <= uint32 z < 2 ^ 32.
Proof. unfold uint32, wrap. apply Z.mod_pos_bound. reflexivity. Qed.

(** The state after [UpdateCombinedLimit true], for whatever budget the
    double computation produces. *)
Lemma UpdateCombinedLimit_enabled_eq ptr_bits (dbl : DoubleOps) (w : World) :
  exists r w',
    ComputeGeometricRandom w = Done r w' /\
    w_thread w' = w_thread w /\
    0 <= r < 2 ^ 32 /\
    UpdateCombinedLimit ptr_bits true w =
      Done tt
        (set_thread
           (with_eeAllocContext
              (with_combined_limit
                 (wrap ptr_bits
                    (alloc_ptr (m_eeAllocContext (w_thread w)) +
                     Z.min (wrap ptr_bits r)
                       (wrap ptr_bits
                          (alloc_limit (m_eeAllocContext (w_thread w)) -
                           alloc_ptr (m_eeAllocContext (w_thread w))))))
                 (m_eeAllocContext (w_thread w)))
              (w_thread w)) w').
Proof.
  unfold UpdateCombinedLimit, ComputeGeometricRandom, NextDouble,
    minipal_xoshiro128pp_next.
  run. eexists _, _. split; [reflexivity|]. cbn.
  split; [reflexivity|]. split; [apply uint32_range|]. reflexivity.
Qed.

(** ** The allocation context *)

(** C7: with sampling disabled, [UpdateCombinedLimit] returns in every
    state with [combined_limit] equal to [alloc_limit], and leaves the
    bounds of the region as they were. *)
Theorem UpdateCombinedLimit_disabled ptr_bits (dbl : DoubleOps) (w : World) :
  exists w',
    UpdateCombinedLimit ptr_bits false w = Done tt w' /\
    combined_limit (m_eeAllocContext (w_thread w')) =
      alloc_limit (m_eeAllocContext (w_thread w')) /\
    alloc_limit (m_eeAllocContext (w_thread w')) =
      alloc_limit (m_eeAllocContext (w_thread w)) /\
    alloc_ptr (m_eeAllocContext (w_thread w')) =
      alloc_ptr (m_eeAllocContext (w_thread w)).
Proof.
  unfold UpdateCombinedLimit. run.
  eexists. split; [reflexivity|]. cbn. auto.
Qed.

(** C3: for a region with [alloc_ptr <= alloc_limit] (equal bounds
    included), whatever the generator and the double arithmetic produce,
    [UpdateCombinedLimit true] returns with
    [alloc_ptr <= combined_limit <= alloc_limit]; the sum that gives
    [combined_limit] stays below [2 ^ ptr_bits], so the pointer addition
    does not wrap. *)
Theorem UpdateCombinedLimit_sampling_bounds
    ptr_bits (dbl : DoubleOps) (w : World)
    (Hptr : 0 <= alloc_ptr (m_eeAllocContext (w_thread w)))
    (Hle : alloc_ptr (m_eeAllocContext (w_thread w)) <=
           alloc_limit (m_eeAllocContext (w_thread w)))
    (Hlim : alloc_limit (m_eeAllocContext (w_thread w)) < 2 ^ ptr_bits) :
  exists w' budget,
    UpdateCombinedLimit ptr_bits true w = Done tt w' /\
    let c := m_eeAllocContext (w_thread w) in
    let c' := m_eeAllocContext (w_thread w') in
    alloc_ptr c' = alloc_ptr c /\
    alloc_limit c' = alloc_limit c /\
    0 <= budget /\
    alloc_ptr c + Z.min budget (alloc_limit c - alloc_ptr c) < 2 ^ ptr_bits /\
    combined_limit c' =
      alloc_ptr c + Z.min budget (alloc_limit c - alloc_ptr c) /\
    alloc_ptr c' <= combined_limit c' <= alloc_limit c' /\
    (alloc_ptr c = alloc_limit c -> combined_limit c' = alloc_ptr c).
Proof.
  destruct (UpdateCombinedLimit_enabled_eq ptr_bits dbl w)
    as (r & w1 & _ & Hthr & Hr & Heq).
  set (c := m_eeAllocContext (w_thread w)) in *.
  assert (Hpow : 0 < 2 ^ ptr_bits) by lia.
  assert (Hsize : wrap ptr_bits (alloc_limit c - alloc_ptr c) =
                  alloc_limit c - alloc_ptr c)
    by (apply wrap_small; lia).
  pose proof (wrap_nonneg ptr_bits r Hpow) as Hb.
  rewrite Hsize in Heq.
  assert (Hsum : wrap ptr_bits
                   (alloc_ptr c +
                    Z.min (wrap ptr_bits r) (alloc_limit c - alloc_ptr c)) =
                 alloc_ptr c +
                 Z.min (wrap ptr_bits r) (alloc_limit c - alloc_ptr c))
    by (apply wrap_small; lia).
  rewrite Hsum in Heq.
  exists (set_thread
            (with_eeAllocContext
               (with_combined_limit
                  (alloc_ptr c +
                   Z.min (wrap ptr_bits r) (alloc_limit c - alloc_ptr c)) c)
               (w_thread w)) w1), (wrap ptr_bits r).
  split; [exact Heq|]. cbn. fold c. repeat split; try lia.
Qed.

Lemma UpdateCombinedLimit_sampling_bounds_witness :
  exists w' budget,
    UpdateCombinedLimit 64 (dbl := RealDouble) true
      (sample_world (sample_thread 0 1 (sample_context 1000 1000)) false)
      = Done tt w' /\
    0 <= budget /\
    combined_limit (m_eeAllocContext (w_thread w')) = 1000 + Z.min budget 0.
Proof.
  destruct (UpdateCombinedLimit_sampling_bounds 64 RealDouble
              (sample_world (sample_thread 0 1 (sample_context 1000 1000)) false))
    as (w' & budget & Hrun & _ & _ & Hb & _ & Hc & _);
    [cbn; lia | cbn; lia | cbn; lia |].
  exists w', budget. repeat split; assumption.
Defined.

(** ** Stack bounds *)

(** C10: with both bounds non-zero, [IsWithinStackBounds p] returns, in
    either build and without touching the state, [true] exactly when
    [m_pStackLow <= p < m_pStackHigh]: the low bound is inside (when the
    interval is not empty), the high bound is outside.  The precondition is
    an assertion: with a zero bound a debug build stops on it. *)
Theorem IsWithinStackBounds_half_open (debug : bool) (w : World) (p : ptr)
    (Hlow : m_pStackLow (w_thread w) <> 0)
    (Hhigh : m_pStackHigh (w_thread w) <> 0) :
  let low := m_pStackLow (w_thread w) in
  let high := m_pStackHigh (w_thread w) in
  exists b,
    IsWithinStackBounds debug p w = Done b w /\
    (b = true <-> low <= p /\ p < high) /\
    (p = low -> low < high -> b = true) /\
    (p = high -> b = false) /\
    (forall w0 : World,
       m_pStackLow (w_thread w0) = 0 \/ m_pStackHigh (w_thread w0) = 0 ->
       IsWithinStackBounds true p w0 = Fatal w0).
Proof.
  intros low high.
  exists ((low <=? p) && (p <? high)).
  split.
  - unfold IsWithinStackBounds. run.
    destruct debug; [|reflexivity].
    fold low high.
    destruct (Z.eqb_spec low 0) as [E|_]; [contradiction|].
    destruct (Z.eqb_spec high 0) as [E|_]; [contradiction|].
    reflexivity.
  - split; [|split; [|split]].
    + rewrite andb_true_iff, Z.leb_le, Z.ltb_lt. tauto.
    + intros -> Hlt. apply andb_true_iff. rewrite Z.leb_le, Z.ltb_lt. lia.
    + intros ->. apply andb_false_iff. right. apply Z.ltb_ge. lia.
    + intros w0 Hz. unfold IsWithinStackBounds. run.
      destruct Hz as [-> | ->]; cbn; [reflexivity|].
      rewrite andb_false_r. reflexivity.
Qed.

Lemma IsWithinStackBounds_half_open_witness :
  exists b,
    IsWithinStackBounds true 4096
      (sample_world (sample_thread 0 1 (sample_context 0 0)) false)
      = Done b (sample_world (sample_thread 0 1 (sample_context 0 0)) false) /\
    b = true.
Proof.
  destruct (IsWithinStackBounds_half_open true
              (sample_world (sample_thread 0 1 (sample_context 0 0)) false) 4096)
    as (b & Hrun & _ & Hin & _); [cbn; lia | cbn; lia |].
  exists b. split; [exact Hrun|]. apply Hin; cbn; [reflexivity | lia].
Defined.

(** ** Registration and unregistration *)

Section Registrations.

Variable debug : bool.

Lemma Push_run (n : ptr) (w : World) :
  n <> NULL -> PushGCFrameRegistration n w = Done tt (pushed n w).
Proof.
  intros Hn. unfold PushGCFrameRegistration. run.
  destruct (Z.eqb_spec n NULL) as [E|_]; [contradiction|]. reflexivity.
Qed.

Lemma Pop_run (n nx : ptr) (w : World) :
  m_pGCFrameRegistrations (w_thread w) = n ->
  reg_next (w_mem w) !! n = Some nx ->
  PopGCFrameRegistration debug n w =
    Done tt (set_thread (with_gcFrameRegistrations nx (w_thread w)) w).
Proof.
  intros Hhead Hnext. unfold PopGCFrameRegistration. run.
  destruct debug; cbn beta iota; rewrite ?Hhead, ?Z.eqb_refl;
    cbn beta iota; rewrite Hnext; reflexivity.
Qed.

Lemma Pop_not_head (n : ptr) (w : World) :
  m_pGCFrameRegistrations (w_thread w) <> n ->
  PopGCFrameRegistration true n w = Fatal w.
Proof.
  intros Hne. unfold PopGCFrameRegistration. run.
  destruct (Z.eqb_spec (m_pGCFrameRegistrations (w_thread w)) n) as [E|_];
    [contradiction | reflexivity].
Qed.

Lemma reg_chain_ext (next next' : gmap Z Z) (l : list ptr) :
  (forall m, In m l -> next' !! m = next !! m) ->
  forall head, reg_chain next head l -> reg_chain next' head l.
Proof.
  induction l as [|n l IH]; intros Hsame head; cbn; [auto|].
  intros (Hh & Hn & nx & Hnx & Hrest).
  split; [exact Hh|]. split; [exact Hn|].
  exists nx. split.
  - rewrite Hsame; [exact Hnx | now left].
  - apply IH; [|exact Hrest]. intros m Hm. apply Hsame. now right.
Qed.

Lemma with_gcFrameRegistrations_restore (t : Thread) (n : ptr) :
  with_gcFrameRegistrations (m_pGCFrameRegistrations t)
    (with_gcFrameRegistrations n t) = t.
Proof. destruct t. reflexivity. Qed.

Lemma run_ops_app (a b : list RegOp) (w : World) :
  run_ops debug (a ++ b) w =
  match run_ops debug a w with
  | Done _ w' => run_ops debug b w'
  | Fatal w' => Fatal w'
  | Fault w' => Fault w'
  end.
Proof.
  revert w. induction a as [|o a IH]; intros w; cbn; [reflexivity|].
  run. destruct (run_op debug o w); auto.
Qed.

(** Nested scopes hand the thread back as it was and leave the links of
    the live nodes alone. *)
Lemma Nested_run (l : list ptr) (ops : list RegOp) :
  Nested l ops ->
  forall w, exists w',
    run_ops debug ops w = Done tt w' /\
    w_thread w' = w_thread w /\
    (forall m, In m l -> reg_next (w_mem w') !! m = reg_next (w_mem w) !! m).
Proof.
  induction 1 as [l | l n inner rest Hn Hfresh _ IHinner _ IHrest]; intros w.
  - exists w. cbn. auto.
  - destruct (IHinner (pushed n w)) as (w2 & Hrun2 & Hthr2 & Hmem2).
    set (w3 := set_thread
                 (with_gcFrameRegistrations
                    (m_pGCFrameRegistrations (w_thread w)) (w_thread w2)) w2).
    destruct (IHrest w3) as (w4 & Hrun4 & Hthr4 & Hmem4).
    assert (Hpop : PopGCFrameRegistration debug n w2 = Done tt w3).
    { apply Pop_run.
      - rewrite Hthr2. reflexivity.
      - rewrite Hmem2 by now left. cbn. apply lookup_insert_eq. }
    exists w4. split; [|split].
    + change (OpPush n :: inner ++ OpPop n :: rest)
        with ([OpPush n] ++ inner ++ [OpPop n] ++ rest).
      rewrite run_ops_app. cbn [run_ops run_op]. run.
      rewrite (Push_run n w Hn).
      rewrite run_ops_app, Hrun2.
      rewrite run_ops_app. cbn [run_ops run_op]. run.
      rewrite Hpop. exact Hrun4.
    + rewrite Hthr4. unfold w3. cbn. rewrite Hthr2. cbn.
      apply with_gcFrameRegistrations_restore.
    + intros m Hm. rewrite Hmem4 by exact Hm. unfold w3. cbn.
      rewrite Hmem2 by now right. cbn.
      apply lookup_insert_ne. intros ->. contradiction.
Qed.

End Registrations.

(** C9: [PopGCFrameRegistration] of the head node returns with the list
    reduced to the nodes after it; in a debug build, popping a node that is
    not the head stops on the assertion; [PushGCFrameRegistration] makes
    the node the new head in front of the former list; strictly nested
    push/pop sequences return, with the thread and the list as they were
    before. *)
Theorem GCFrameRegistration_lifo (debug : bool) :
  (forall (w : World) (n : ptr) (l : list ptr),
     reg_chain (reg_next (w_mem w)) (m_pGCFrameRegistrations (w_thread w)) (n :: l) ->
     exists w',
       PopGCFrameRegistration debug n w = Done tt w' /\
       w_mem w' = w_mem w /\
       reg_chain (reg_next (w_mem w')) (m_pGCFrameRegistrations (w_thread w')) l) /\
  (forall (w : World) (n : ptr),
     m_pGCFrameRegistrations (w_thread w) <> n ->
     PopGCFrameRegistration true n w = Fatal w) /\
  (forall (w : World) (n : ptr) (l : list ptr),
     n <> NULL -> ~ In n l ->
     reg_chain (reg_next (w_mem w)) (m_pGCFrameRegistrations (w_thread w)) l ->
     exists w',
       PushGCFrameRegistration n w = Done tt w' /\
       m_pGCFrameRegistrations (w_thread w') = n /\
       reg_chain (reg_next (w_mem w')) n (n :: l)) /\
  (forall (w : World) (l : list ptr) (ops : list RegOp),
     Nested l ops ->
     reg_chain (reg_next (w_mem w)) (m_pGCFrameRegistrations (w_thread w)) l ->
     exists w',
       run_ops debug ops w = Done tt w' /\
       w_thread w' = w_thread w /\
       reg_chain (reg_next (w_mem w')) (m_pGCFrameRegistrations (w_thread w')) l).
Proof.
  split; [|split; [|split]].
  - intros w n l (Hhead & Hn & nx & Hnx & Hrest).
    eexists. split; [apply (Pop_run debug n nx w Hhead Hnx)|].
    cbn. split; [reflexivity | exact Hrest].
  - intros w n. apply Pop_not_head.
  - intros w n l Hn Hfresh Hchain.
    exists (pushed n w). split; [apply Push_run; exact Hn|].
    cbn. split; [reflexivity|]. split; [reflexivity|]. split; [exact Hn|].
    exists (m_pGCFrameRegistrations (w_thread w)).
    split; [apply lookup_insert_eq|].
    apply (reg_chain_ext (reg_next (w_mem w))); [|exact Hchain].
    intros m Hm. apply lookup_insert_ne. intros ->. contradiction.
  - intros w l ops Hnest Hchain.
    destruct (Nested_run debug l ops Hnest w) as (w' & Hrun & Hthr & Hmem).
    exists w'. split; [exact Hrun|]. split; [exact Hthr|].
    rewrite Hthr. apply (reg_chain_ext (reg_next (w_mem w))); assumption.
Qed.

Lemma GCFrameRegistration_lifo_witness :
  let w0 := sample_world (sample_thread 0 1 (sample_context 0 0)) false in
  (exists w',
     run_ops true
       [OpPush 10; OpPush 20; OpPop 20; OpPush 20; OpPop 20; OpPop 10] w0
       = Done tt w' /\
     w_thread w' = w_thread w0) /\
  PopGCFrameRegistration true 10 w0 = Fatal w0.
Proof.
  intros w0.
  destruct (GCFrameRegistration_lifo true) as (_ & Hfatal & _ & Hnest).
  split.
  - destruct (Hnest w0 []
                [OpPush 10; OpPush 20; OpPop 20; OpPush 20; OpPop 20; OpPop 10])
      as (w' & Hrun & Hthr & _).
    + apply (Nested_scope [] 10 [OpPush 20; OpPop 20; OpPush 20; OpPop 20] []).
      * unfold NULL. lia.
      * cbn. tauto.
      * apply (Nested_scope [10] 20 [] [OpPush 20; OpPop 20]).
        -- unfold NULL. lia.
        -- cbn. intros [H|[]]. lia.
        -- apply Nested_nil.
        -- apply (Nested_scope [10] 20 [] []).
           ++ unfold NULL. lia.
           ++ cbn. intros [H|[]]. lia.
           ++ apply Nested_nil.
           ++ apply Nested_nil.
      * apply Nested_nil.
    + reflexivity.
    + exists w'. split; assumption.
  - apply Hfatal. cbn. lia.
Defined.

Example registrations_after_two_pushes :
  match run_ops true [OpPush 10; OpPush 20]
          (sample_world (sample_thread 0 1 (sample_context 0 0)) false) with
  | Done _ w => world_registrations 5 w
  | _ => []
  end = [20; 10].
Proof. vm_compute. reflexivity. Qed.

Example registrations_round_trip :
  match run_ops true [OpPush 10; OpPush 20; OpPop 20; OpPush 30; OpPop 30; OpPop 10]
          (sample_world (sample_thread 0 1 (sample_context 0 0)) false) with
  | Done _ w => Some (world_registrations 5 w)
  | _ => None
  end = Some [].
Proof. vm_compute. reflexivity. Qed.

(** A release build does not notice an out-of-order pop: the head becomes
    the successor of the node passed in, which drops every node above it. *)
Example pop_out_of_order_release :
  match run_ops false [OpPush 10; OpPush 20; OpPop 10]
          (sample_world (sample_thread 0 1 (sample_context 0 0)) false) with
  | Done _ w => Some (world_registrations 5 w)
  | _ => None
  end = Some [].
Proof. vm_compute. reflexivity. Qed.

Example pop_out_of_order_debug :
  is_fatal (run_ops true [OpPush 10; OpPush 20; OpPop 10]
              (sample_world (sample_thread 0 1 (sample_context 0 0)) false))
  = true.
Proof. vm_compute. reflexivity. Qed.

(** ** Mode transitions *)

Section Transitions.

Variable debug : bool.
Variables TSF_Attached TSF_DoNotTriggerGc : Z.
Variable IsGCSpecial : Thread -> bool.

Local Abbreviation TryFast :=
  (InlineTryFastReversePInvoke debug TSF_Attached TSF_DoNotTriggerGc IsGCSpecial).
Local Abbreviation DoNotTriggerGc t := (IsDoNotTriggerGcSet TSF_DoNotTriggerGc t).

Ltac open_TryFast p :=
  unfold InlineTryFastReversePInvoke, VolatileStoreWithoutBarrier,
    IsTrapThreadsRequested; run;
  destruct (Z.eqb_spec p NULL) as [?|_]; [contradiction|];
  unfold IsCurrentThreadInCooperativeMode;
  cbn [w_thread set_mem emit set_thread].

Lemma TryFast_not_attached (pFrame : ptr) (w : World) :
  pFrame <> NULL ->
  DoNotTriggerGc (w_thread w) = false ->
  IsStateSet (w_thread w) TSF_Attached = false ->
  TryFast pFrame w = Done false (saved_world pFrame w).
Proof.
  intros Hp Hd Ha. open_TryFast pFrame.
  rewrite Hd, Ha. reflexivity.
Qed.

Lemma TryFast_cooperative (pFrame : ptr) (w : World) :
  pFrame <> NULL ->
  DoNotTriggerGc (w_thread w) = false ->
  m_pTransitionFrame (w_thread w) = NULL ->
  TryFast pFrame w = Done false (saved_world pFrame w).
Proof.
  intros Hp Hd Hc. open_TryFast pFrame.
  unfold saved_world. rewrite Hd, Hc. cbn.
  destruct (negb _); reflexivity.
Qed.

Lemma TryFast_gc_special_debug (pFrame : ptr) (w : World) :
  debug = true ->
  pFrame <> NULL ->
  DoNotTriggerGc (w_thread w) = false ->
  IsStateSet (w_thread w) TSF_Attached = true ->
  m_pTransitionFrame (w_thread w) <> NULL ->
  IsGCSpecial (w_thread w) = true ->
  TryFast pFrame w = Fatal (saved_world pFrame w).
Proof.
  intros Hdbg Hp Hd Ha Hc Hg. open_TryFast pFrame.
  rewrite Hd, Ha. cbn.
  destruct (Z.eqb_spec (m_pTransitionFrame (w_thread w)) NULL) as [?|_];
    [contradiction|].
  rewrite Hdbg. cbn. rewrite Hg. reflexivity.
Qed.

(** The ordinary transition, reached when the assertion on GC threads
    passes or is compiled out. *)
Lemma TryFast_ordinary (pFrame : ptr) (w : World) :
  pFrame <> NULL ->
  DoNotTriggerGc (w_thread w) = false ->
  IsStateSet (w_thread w) TSF_Attached = true ->
  m_pTransitionFrame (w_thread w) <> NULL ->
  debug = false \/ IsGCSpecial (w_thread w) = false ->
  exists w',
    TryFast pFrame w = Done (negb (next_trap w)) w' /\
    w_mem w' = w_mem (saved_world pFrame w) /\
    w_thread w' =
      (if next_trap w then w_thread w
       else with_transitionFrame NULL (w_thread w)).
Proof.
  intros Hp Hd Ha Hc Hg. open_TryFast pFrame.
  rewrite Hd, Ha. cbn.
  destruct (Z.eqb_spec (m_pTransitionFrame (w_thread w)) NULL) as [?|_];
    [contradiction|].
  assert (Hok : negb debug || negb (IsGCSpecial (w_thread w)) = true)
    by (destruct Hg as [-> | ->]; [reflexivity | apply orb_true_r]).
  clear Hg. unfold next_trap.
  revert Hok. destruct debug; cbn; intros Hok; rewrite ?Hok; cbn;
    destruct (w_trap w (w_trapReads w)); cbn;
    rewrite ?lookup_insert_eq; eexists; (split; [reflexivity|]); cbn;
    (split; [reflexivity|]); try reflexivity;
    destruct (w_thread w); reflexivity.
Qed.

Lemma TryFast_do_not_trigger (pFrame : ptr) (w : World) :
  pFrame <> NULL ->
  DoNotTriggerGc (w_thread w) = true ->
  TryFast pFrame w =
    if debug then
      if next_trap (saved_world pFrame w)
      then Done true (trap_read_world (saved_world pFrame w))
      else Fatal (trap_read_world (saved_world pFrame w))
    else Done true (saved_world pFrame w).
Proof.
  intros Hp Hd. open_TryFast pFrame.
  rewrite Hd.
  destruct debug; [|reflexivity].
  unfold next_trap, trap_read_world, saved_world. cbn.
  destruct (w_trap w (w_trapReads w)); reflexivity.
Qed.

End Transitions.

Section FastReentry.

Variable debug : bool.
Variables TSF_Attached TSF_DoNotTriggerGc : Z.
Variable IsGCSpecial : Thread -> bool.

Local Abbreviation TryFast :=
  (InlineTryFastReversePInvoke debug TSF_Attached TSF_DoNotTriggerGc IsGCSpecial).
Local Abbreviation DoNotTriggerGc t := (IsDoNotTriggerGcSet TSF_DoNotTriggerGc t).

Lemma saved_world_lookup (pFrame : ptr) (w : World) :
  frame_saved (w_mem (saved_world pFrame w)) !! pFrame =
    Some (m_pTransitionFrame (w_thread w)).
Proof. cbn. apply lookup_insert_eq. Qed.

(** Whenever the call returns, the frame holds the transition frame the
    thread had on entry. *)
Lemma TryFast_Done_saved (pFrame : ptr) (w w1 : World) (b : bool) :
  pFrame <> NULL ->
  TryFast pFrame w = Done b w1 ->
  frame_saved (w_mem w1) !! pFrame = Some (m_pTransitionFrame (w_thread w)).
Proof.
  intros Hp Hrun.
  destruct (DoNotTriggerGc (w_thread w)) eqn:Hd.
  - rewrite (TryFast_do_not_trigger _ _ _ _ pFrame w Hp Hd) in Hrun.
    destruct debug; [destruct (next_trap _)|]; inversion Hrun; subst;
      apply saved_world_lookup.
  - destruct (IsStateSet (w_thread w) TSF_Attached) eqn:Ha.
    2:{ rewrite (TryFast_not_attached _ _ _ _ pFrame w Hp Hd Ha) in Hrun.
        inversion Hrun; subst. apply saved_world_lookup. }
    destruct (Z.eq_dec (m_pTransitionFrame (w_thread w)) NULL) as [Hc|Hc].
    { rewrite (TryFast_cooperative _ _ _ _ pFrame w Hp Hd Hc) in Hrun.
      inversion Hrun; subst. apply saved_world_lookup. }
    assert (Hgate : (debug = true /\ IsGCSpecial (w_thread w) = true) \/
                    (debug = false \/ IsGCSpecial (w_thread w) = false))
      by (destruct debug, (IsGCSpecial (w_thread w)); auto).
    destruct Hgate as [[Hdbg Hg] | Hg].
    + rewrite (TryFast_gc_special_debug _ _ _ _ pFrame w Hdbg Hp Hd Ha Hc Hg)
        in Hrun. discriminate.
    + destruct (TryFast_ordinary debug _ _ _ pFrame w Hp Hd Ha Hc Hg)
        as (w' & Hrun' & Hmem & _).
      rewrite Hrun' in Hrun. inversion Hrun; subst.
      rewrite Hmem. apply saved_world_lookup.
Qed.

(** The call returns, or a debug build stops on one of its assertions. *)
Lemma TryFast_total (pFrame : ptr) (w : World) :
  pFrame <> NULL ->
  (exists b w1, TryFast pFrame w = Done b w1) \/
  (debug = true /\ exists w1, TryFast pFrame w = Fatal w1).
Proof.
  intros Hp.
  destruct (DoNotTriggerGc (w_thread w)) eqn:Hd.
  - rewrite (TryFast_do_not_trigger _ _ _ _ pFrame w Hp Hd).
    destruct debug; [destruct (next_trap _)|]; eauto.
  - destruct (IsStateSet (w_thread w) TSF_Attached) eqn:Ha.
    2:{ left. rewrite (TryFast_not_attached _ _ _ _ pFrame w Hp Hd Ha). eauto. }
    destruct (Z.eq_dec (m_pTransitionFrame (w_thread w)) NULL) as [Hc|Hc].
    { left. rewrite (TryFast_cooperative _ _ _ _ pFrame w Hp Hd Hc). eauto. }
    assert (Hgate : (debug = true /\ IsGCSpecial (w_thread w) = true) \/
                    (debug = false \/ IsGCSpecial (w_thread w) = false))
      by (destruct debug, (IsGCSpecial (w_thread w)); auto).
    destruct Hgate as [[Hdbg Hg] | Hg].
    + right. split; [exact Hdbg|].
      rewrite (TryFast_gc_special_debug _ _ _ _ pFrame w Hdbg Hp Hd Ha Hc Hg).
      eauto.
    + left. destruct (TryFast_ordinary debug _ _ _ pFrame w Hp Hd Ha Hc Hg)
        as (w' & Hrun' & _).
      eauto.
Qed.

Lemma ReversePInvokeReturn_run (pFrame v : ptr) (w : World) :
  frame_saved (w_mem w) !! pFrame = Some v ->
  InlineReversePInvokeReturn pFrame w =
    Done tt (emit (EvVolatileStore v)
               (set_thread (with_transitionFrame v (w_thread w)) w)).
Proof.
  intros Hv. unfold InlineReversePInvokeReturn, VolatileStoreWithoutBarrier.
  run. rewrite Hv. reflexivity.
Qed.

End FastReentry.

(** C1, as the code has it: with do-not-trigger-GC clear, the call returns
    [false] when the thread is not attached or is already in cooperative
    mode.  Being GC-special is not among the reasons for returning [false]:
    on an attached thread in preemptive mode it is only asserted against,
    so a debug build stops there and a release build goes on as for any
    other thread and returns [true] exactly when no suspension is
    requested. *)
Theorem InlineTryFastReversePInvoke_declines
    (debug : bool) (TSF_Attached TSF_DoNotTriggerGc : Z)
    (IsGCSpecial : Thread -> bool) (pFrame : ptr) (w : World)
    (Hframe : pFrame <> NULL)
    (Hclear : IsDoNotTriggerGcSet TSF_DoNotTriggerGc (w_thread w) = false) :
  (IsStateSet (w_thread w) TSF_Attached = false \/
   m_pTransitionFrame (w_thread w) = NULL ->
   InlineTryFastReversePInvoke debug TSF_Attached TSF_DoNotTriggerGc
     IsGCSpecial pFrame w = Done false (saved_world pFrame w)) /\
  (IsStateSet (w_thread w) TSF_Attached = true ->
   m_pTransitionFrame (w_thread w) <> NULL ->
   IsGCSpecial (w_thread w) = true ->
   if debug then
     InlineTryFastReversePInvoke debug TSF_Attached TSF_DoNotTriggerGc
       IsGCSpecial pFrame w = Fatal (saved_world pFrame w)
   else
     exists w',
       InlineTryFastReversePInvoke debug TSF_Attached TSF_DoNotTriggerGc
         IsGCSpecial pFrame w = Done (negb (next_trap w)) w').
Proof.
  split.
  - intros [Ha | Hc].
    + apply TryFast_not_attached; assumption.
    + apply TryFast_cooperative; assumption.
  - intros Ha Hc Hg. destruct debug eqn:Hdbg.
    + apply TryFast_gc_special_debug; auto.
    + destruct (TryFast_ordinary false TSF_Attached TSF_DoNotTriggerGc
                  IsGCSpecial pFrame w Hframe Hclear Ha Hc (or_introl eq_refl))
        as (w' & Hrun & _).
      exists w'. exact Hrun.
Qed.

Lemma InlineTryFastReversePInvoke_declines_witness :
  InlineTryFastReversePInvoke true flag_Attached flag_DoNotTriggerGc
    sample_IsGCSpecial 500 cooperative_world
  = Done false (saved_world 500 cooperative_world).
Proof.
  apply (InlineTryFastReversePInvoke_declines true flag_Attached
           flag_DoNotTriggerGc sample_IsGCSpecial 500 cooperative_world).
  - unfold NULL. lia.
  - reflexivity.
  - right. reflexivity.
Defined.

(** C1 fails as stated: a GC-special thread, attached, in preemptive mode,
    with do-not-trigger-GC clear and no suspension requested, gets [true]
    from a release build. *)
Lemma InlineTryFastReversePInvoke_gc_special_succeeds :
  sample_IsGCSpecial (w_thread gc_special_world) = true /\
  IsDoNotTriggerGcSet flag_DoNotTriggerGc (w_thread gc_special_world) = false /\
  outcome_value
    (InlineTryFastReversePInvoke false flag_Attached flag_DoNotTriggerGc
       sample_IsGCSpecial 500 gc_special_world) = Some true.
Proof. repeat split. Qed.

(** C6: with do-not-trigger-GC set, the call returns [true] and leaves the
    thread, its transition frame included, as it was: the only store goes
    into the caller's frame.  That a suspension is active is the
    precondition of this path: a debug build reads the trap flag once and
    stops if it is clear. *)
Theorem InlineTryFastReversePInvoke_do_not_trigger
    (debug : bool) (TSF_Attached TSF_DoNotTriggerGc : Z)
    (IsGCSpecial : Thread -> bool) (pFrame : ptr) (w : World)
    (Hframe : pFrame <> NULL)
    (Hset : IsDoNotTriggerGcSet TSF_DoNotTriggerGc (w_thread w) = true) :
  (debug = false \/ next_trap w = true ->
   exists w',
     InlineTryFastReversePInvoke debug TSF_Attached TSF_DoNotTriggerGc
       IsGCSpecial pFrame w = Done true w' /\
     w_thread w' = w_thread w /\
     w_trace w' =
       w_trace w ++
       EvFrameSaved pFrame (m_pTransitionFrame (w_thread w)) ::
       (if debug then [EvTrapRead true] else [])) /\
  (debug = true -> next_trap w = false ->
   InlineTryFastReversePInvoke debug TSF_Attached TSF_DoNotTriggerGc
     IsGCSpecial pFrame w = Fatal (trap_read_world (saved_world pFrame w))).
Proof.
  rewrite (TryFast_do_not_trigger debug TSF_Attached TSF_DoNotTriggerGc
             IsGCSpecial pFrame w Hframe Hset).
  change (next_trap (saved_world pFrame w)) with (next_trap w).
  split.
  - intros [-> | Htrap].
    + eexists. split; [reflexivity|]. cbn. split; reflexivity.
    + rewrite Htrap. destruct debug.
      * eexists. split; [reflexivity|]. cbn.
        change (w_trap w (w_trapReads w)) with (next_trap w).
        rewrite Htrap, <- app_assoc. split; reflexivity.
      * eexists. split; [reflexivity|]. cbn. split; reflexivity.
  - intros -> ->. reflexivity.
Qed.

Lemma InlineTryFastReversePInvoke_do_not_trigger_witness :
  exists w',
    InlineTryFastReversePInvoke true flag_Attached flag_DoNotTriggerGc
      sample_IsGCSpecial 500 (do_not_trigger_world true) = Done true w' /\
    w_thread w' = w_thread (do_not_trigger_world true).
Proof.
  destruct (InlineTryFastReversePInvoke_do_not_trigger true flag_Attached
              flag_DoNotTriggerGc sample_IsGCSpecial 500
              (do_not_trigger_world true)) as [Hok _].
  - unfold NULL. lia.
  - reflexivity.
  - destruct Hok as (w' & Hrun & Hthr & _); [right; reflexivity|].
    exists w'. split; assumption.
Defined.

(** C4: whatever the transition frame before the call, null included,
    [InlineTryFastReversePInvoke] on a frame followed by
    [InlineReversePInvokeReturn] on the same frame leaves
    [m_pTransitionFrame] at the value it had before the pair.  The first
    call returns in every state of a release build; a debug build returns
    or stops on one of its assertions. *)
Theorem fast_reentry_round_trip
    (debug : bool) (TSF_Attached TSF_DoNotTriggerGc : Z)
    (IsGCSpecial : Thread -> bool) (pFrame : ptr) (w : World)
    (Hframe : pFrame <> NULL) :
  ((exists b w1,
      InlineTryFastReversePInvoke debug TSF_Attached TSF_DoNotTriggerGc
        IsGCSpecial pFrame w = Done b w1) \/
   (debug = true /\
    exists w1,
      InlineTryFastReversePInvoke debug TSF_Attached TSF_DoNotTriggerGc
        IsGCSpecial pFrame w = Fatal w1)) /\
  (forall b w1,
     InlineTryFastReversePInvoke debug TSF_Attached TSF_DoNotTriggerGc
       IsGCSpecial pFrame w = Done b w1 ->
     exists w2,
       InlineReversePInvokeReturn pFrame w1 = Done tt w2 /\
       m_pTransitionFrame (w_thread w2) = m_pTransitionFrame (w_thread w)) /\
  (debug = false ->
   exists b w1 w2,
     InlineTryFastReversePInvoke debug TSF_Attached TSF_DoNotTriggerGc
       IsGCSpecial pFrame w = Done b w1 /\
     InlineReversePInvokeReturn pFrame w1 = Done tt w2 /\
     m_pTransitionFrame (w_thread w2) = m_pTransitionFrame (w_thread w)).
Proof.
  assert (Hpair : forall b w1,
    InlineTryFastReversePInvoke debug TSF_Attached TSF_DoNotTriggerGc
      IsGCSpecial pFrame w = Done b w1 ->
    exists w2,
      InlineReversePInvokeReturn pFrame w1 = Done tt w2 /\
      m_pTransitionFrame (w_thread w2) = m_pTransitionFrame (w_thread w)).
  { intros b w1 Hrun.
    pose proof (TryFast_Done_saved _ _ _ _ pFrame w w1 b Hframe Hrun) as Hsaved.
    eexists. split; [apply ReversePInvokeReturn_run; exact Hsaved|].
    reflexivity. }
  pose proof (TryFast_total debug TSF_Attached TSF_DoNotTriggerGc IsGCSpecial
                pFrame w Hframe) as Htotal.
  split; [exact Htotal|]. split; [exact Hpair|].
  intros Hrel.
  destruct Htotal as [(b & w1 & Hrun) | [Hdbg _]]; [|congruence].
  destruct (Hpair b w1 Hrun) as (w2 & Hret & Htf).
  exists b, w1, w2. auto.
Qed.

Lemma fast_reentry_round_trip_witness :
  exists b w1 w2,
    InlineTryFastReversePInvoke false flag_Attached flag_DoNotTriggerGc
      sample_IsGCSpecial 500 cooperative_world = Done b w1 /\
    InlineReversePInvokeReturn 500 w1 = Done tt w2 /\
    m_pTransitionFrame (w_thread w2) = NULL.
Proof.
  destruct (fast_reentry_round_trip false flag_Attached flag_DoNotTriggerGc
              sample_IsGCSpecial 500 cooperative_world) as (_ & _ & Hrel).
  - unfold NULL. lia.
  - exact (Hrel eq_refl).
Defined.

Example round_trip_preemptive_no_trap :
  match InlineTryFastReversePInvoke true flag_Attached flag_DoNotTriggerGc
          sample_IsGCSpecial 500 (preemptive_world false) with
  | Done b w1 =>
      (b, m_pTransitionFrame (w_thread w1),
       option_map m_pTransitionFrame
         (outcome_thread (InlineReversePInvokeReturn 500 w1)))
  | _ => (false, -1, None)
  end = (true, NULL, Some 300).
Proof. vm_compute. reflexivity. Qed.

Example round_trip_preemptive_trap :
  match InlineTryFastReversePInvoke true flag_Attached flag_DoNotTriggerGc
          sample_IsGCSpecial 500 (preemptive_world true) with
  | Done b w1 =>
      (b, m_pTransitionFrame (w_thread w1),
       option_map m_pTransitionFrame
         (outcome_thread (InlineReversePInvokeReturn 500 w1)))
  | _ => (true, -1, None)
  end = (false, 300, Some 300).
Proof. vm_compute. reflexivity. Qed.

(** C5: [InlinePInvokeReturn] always performs, in this order, the volatile
    store of null into [m_pTransitionFrame] and then one read of the trap
    flag.  If the flag is set it calls [RhpWaitForGC2] with the frame, on a
    thread whose transition frame is null; if it is clear the call returns
    with the transition frame null, the thread in cooperative mode and
    nothing else changed. *)
Theorem InlinePInvokeReturn_publish_then_check
    (RhpWaitForGC2_returns : ptr -> Thread -> Memory -> Thread * Memory)
    (pFrame : ptr) (w : World) :
  exists w',
    InlinePInvokeReturn RhpWaitForGC2_returns pFrame w = Done tt w' /\
    w_trace w' =
      w_trace w ++
      [EvVolatileStore NULL; EvTrapRead (next_trap w)] ++
      (if next_trap w then [EvWaitForGC2 pFrame] else []) /\
    if next_trap w then
      (w_thread w', w_mem w') =
        RhpWaitForGC2_returns pFrame
          (with_transitionFrame NULL (w_thread w)) (w_mem w)
    else
      w_thread w' = with_transitionFrame NULL (w_thread w) /\
      m_pTransitionFrame (w_thread w') = NULL /\
      IsCurrentThreadInCooperativeMode (w_thread w') = true /\
      w_mem w' = w_mem w.
Proof.
  unfold InlinePInvokeReturn, RhpWaitForGC2, VolatileStoreWithoutBarrier,
    IsTrapThreadsRequested, next_trap.
  run. cbn.
  destruct (w_trap w (w_trapReads w)); cbn.
  - eexists. split; [reflexivity|]. cbn.
    split; [now rewrite <- !app_assoc|].
    destruct (RhpWaitForGC2_returns _ _ _); reflexivity.
  - eexists. split; [reflexivity|]. cbn.
    split; [now rewrite <- !app_assoc|]. repeat split.
Qed.

Example scenario_enter_then_exit_preemptive :
  match InlinePInvoke true flag_DoNotTriggerGc 600 cooperative_world with
  | Done _ w1 =>
      (m_pTransitionFrame (w_thread w1),
       option_map m_pTransitionFrame
         (outcome_thread (InlinePInvokeReturn sample_wait 600 w1)),
       outcome_trace (InlinePInvokeReturn sample_wait 600 w1))
  | _ => (0, None, [])
  end
  = (600, Some NULL,
     [EvFrameThread 600 77; EvVolatileStore 600;
      EvVolatileStore NULL; EvTrapRead false]).
Proof. vm_compute. reflexivity. Qed.

(** C8, as the code has it: [InlinePInvoke] writes [this] into
    [pFrame->m_pThread] and then does the volatile store of [pFrame] into
    [m_pTransitionFrame], which leaves the thread in preemptive mode.  The
    precondition (do-not-trigger-GC clear, or a suspension requested) is an
    assertion: a debug build that finds it violated stops before either
    store; a release build does not check it. *)
Theorem InlinePInvoke_publishes
    (debug : bool) (TSF_DoNotTriggerGc : Z) (pFrame : ptr) (w : World)
    (Hframe : pFrame <> NULL) :
  (debug = false \/
   IsDoNotTriggerGcSet TSF_DoNotTriggerGc (w_thread w) = false \/
   next_trap w = true ->
   exists w',
     InlinePInvoke debug TSF_DoNotTriggerGc pFrame w = Done tt w' /\
     frame_thread (w_mem w') !! pFrame = Some (w_this w) /\
     m_pTransitionFrame (w_thread w') = pFrame /\
     IsCurrentThreadInCooperativeMode (w_thread w') = false /\
     w_trace w' =
       w_trace w ++
       (if debug && IsDoNotTriggerGcSet TSF_DoNotTriggerGc (w_thread w)
        then [EvTrapRead true] else []) ++
       [EvFrameThread pFrame (w_this w); EvVolatileStore pFrame]) /\
  (debug = true ->
   IsDoNotTriggerGcSet TSF_DoNotTriggerGc (w_thread w) = true ->
   next_trap w = false ->
   InlinePInvoke debug TSF_DoNotTriggerGc pFrame w = Fatal (trap_read_world w)).
Proof.
  unfold InlinePInvoke, VolatileStoreWithoutBarrier, IsTrapThreadsRequested,
    next_trap, trap_read_world.
  run.
  assert (Hne : (pFrame =? NULL) = false) by (apply Z.eqb_neq; exact Hframe).
  split.
  - intros Hpre.
    assert (Hgate :
      debug && IsDoNotTriggerGcSet TSF_DoNotTriggerGc (w_thread w) = false \/
      (debug = true /\
       IsDoNotTriggerGcSet TSF_DoNotTriggerGc (w_thread w) = true /\
       w_trap w (w_trapReads w) = true)).
    { destruct debug, (IsDoNotTriggerGcSet TSF_DoNotTriggerGc (w_thread w));
        cbn; auto.
      destruct Hpre as [H | [H | H]]; try discriminate. auto. }
    destruct Hgate as [Hoff | (-> & Hd & Htrap)].
    + rewrite Hoff.
      destruct debug; cbn in Hoff |- *;
        rewrite ?Hoff; cbn; rewrite Hne; cbn;
        (eexists; split; [reflexivity|]); cbn;
        rewrite lookup_insert_eq, Hne, <- !app_assoc; auto.
    + rewrite Hd. cbn. rewrite Htrap. cbn. rewrite Hne. cbn.
      eexists. split; [reflexivity|]. cbn.
      rewrite lookup_insert_eq, Hne, <- !app_assoc. auto.
  - intros -> Hd Htrap. rewrite Hd. cbn. rewrite Htrap. reflexivity.
Qed.

Lemma InlinePInvoke_publishes_witness :
  exists w',
    InlinePInvoke true flag_DoNotTriggerGc 600 cooperative_world = Done tt w' /\
    frame_thread (w_mem w') !! 600 = Some 77 /\
    m_pTransitionFrame (w_thread w') = 600.
Proof.
  destruct (InlinePInvoke_publishes true flag_DoNotTriggerGc 600
              cooperative_world) as [Hok _].
  - unfold NULL. lia.
  - destruct Hok as (w' & Hrun & Hmem & Htf & _).
    + right. left. reflexivity.
    + exists w'. repeat split; assumption.
Defined.

(** C8 fails as stated: with do-not-trigger-GC set and no suspension
    requested, a release build returns from [InlinePInvoke] with the frame
    published; nothing stops the process. *)
Lemma InlinePInvoke_release_unchecked :
  IsDoNotTriggerGcSet flag_DoNotTriggerGc
    (w_thread (do_not_trigger_world false)) = true /\
  next_trap (do_not_trigger_world false) = false /\
  is_fatal (InlinePInvoke false flag_DoNotTriggerGc 600
              (do_not_trigger_world false)) = false /\
  option_map m_pTransitionFrame
    (outcome_thread (InlinePInvoke false flag_DoNotTriggerGc 600
                       (do_not_trigger_world false))) = Some 600.
Proof. vm_compute. repeat split. Qed.

Example InlinePInvoke_debug_stops :
  is_fatal (InlinePInvoke true flag_DoNotTriggerGc 600
              (do_not_trigger_world false)) = true.
Proof. vm_compute. reflexivity. Qed.

(** ** The budget computed over the reals *)

Lemma pow2_32 : (2 ^ 32 = 4294967296)%R.
Proof. simpl. lra. Qed.

Lemma ln_le_compat (x y : R) : (0 < x -> x <= y -> ln x <= ln y)%R.
Proof.
  intros Hx [Hlt | ->].
  - left. apply ln_increasing; assumption.
  - right. reflexivity.
Qed.

Lemma ln_2_lt_1 : (ln 2 < 1)%R.
Proof.
  apply Rlt_le_trans with (ln (exp 1)); [|right; apply ln_exp].
  apply ln_increasing; [lra|].
  pose proof (exp_ineq1 1) as H. lra.
Qed.

(** [-ln y < (1 - y) / y] on the open unit interval. *)
Lemma neg_ln_upper (y : R) : (0 < y < 1 -> - ln y < (1 - y) / y)%R.
Proof.
  intros [H0 H1].
  rewrite <- ln_Rinv by exact H0.
  assert (Ht : (0 < (1 - y) / y)%R).
  { apply Rdiv_lt_0_compat; lra. }
  replace (/ y)%R with (1 + (1 - y) / y)%R by (field; lra).
  apply Rlt_le_trans with (ln (exp ((1 - y) / y))); [|right; apply ln_exp].
  apply ln_increasing; [lra|].
  apply exp_ineq1. lra.
Qed.

Lemma uniform_of_range (value : Z) :
  0 <= value < 2 ^ 32 ->
  (0 <= uniform_of value <= 1 - / 2 ^ 32)%R.
Proof.
  intros [Hlo Hhi]. unfold uniform_of. rewrite pow2_32.
  assert (Hv : (0 <= IZR value <= 4294967295)%R).
  { split; [apply IZR_le; exact Hlo | apply IZR_le; lia]. }
  lra.
Qed.

Lemma scaled_log_range (value : Z) :
  0 <= value < 2 ^ 32 ->
  (0 <= scaled_log value < 3276800)%R.
Proof.
  intros Hv. pose proof (uniform_of_range value Hv) as [Hlo Hhi].
  unfold scaled_log.
  set (y := (1 - uniform_of value)%R) in *.
  assert (Hy : (/ 2 ^ 32 <= y <= 1)%R) by (unfold y; lra).
  assert (Hpos : (0 < / 2 ^ 32)%R) by (rewrite pow2_32; lra).
  assert (Hup : (ln y <= 0)%R).
  { rewrite <- ln_1. apply ln_le_compat; lra. }
  assert (Hdown : (- 32 < ln y)%R).
  { apply Rlt_le_trans with (ln (/ 2 ^ 32)).
    - rewrite ln_Rinv by (rewrite pow2_32; lra).
      rewrite ln_pow by lra.
      rewrite INR_IZR_INZ. change (Z.of_nat 32) with 32%Z.
      pose proof ln_2_lt_1. lra.
    - apply ln_le_compat; lra. }
  lra.
Qed.

Lemma Rtrunc_nonneg (x : R) : (0 <= x)%R -> Rtrunc x = Int_part x.
Proof.
  intros Hx. unfold Rtrunc. destruct (Rle_dec 0 x); [reflexivity | contradiction].
Qed.

Lemma Int_part_bounds (x : R) (hi : Z) :
  (0 <= x < IZR hi)%R -> 0 <= Int_part x < hi.
Proof.
  intros [Hlo Hhi]. destruct (base_Int_part x) as [Hle Hgt].
  split.
  - assert (H : (IZR (-1) < IZR (Int_part x))%R) by (simpl; lra).
    apply lt_IZR in H. lia.
  - apply lt_IZR. lra.
Qed.

(** What [ComputeGeometricRandom] returns over the reals: the integer part
    of the scaled logarithm of the draw. *)
Lemma ComputeGeometricRandom_real (w : World) :
  let value := uint32 (w_rng w (w_rngDraws w)) in
  exists w',
    ComputeGeometricRandom (dbl := RealDouble) w =
      Done (Int_part (scaled_log value)) w' /\
    w_thread w' = w_thread w.
Proof.
  intros value.
  unfold ComputeGeometricRandom, NextDouble, minipal_xoshiro128pp_next.
  run. cbn [d_mul d_of_Z d_div d_add d_neg d_log d_sub d_to_Z RealDouble].
  fold value.
  pose proof (uint32_range (w_rng w (w_rngDraws w))) as Hv. fold value in Hv.
  assert (Harg :
    (- ln (1 - IZR value * (1 / (IZR UINT32_MAX + 1))) *
       IZR SamplingDistributionMean)%R = scaled_log value).
  { unfold scaled_log, uniform_of, UINT32_MAX.
    change SamplingDistributionMean with 102400.
    rewrite pow2_32. f_equal. f_equal. f_equal. lra. }
  rewrite Harg.
  pose proof (scaled_log_range value Hv) as Hrange.
  rewrite Rtrunc_nonneg by lra.
  assert (Hint : 0 <= Int_part (scaled_log value) < 2 ^ 32).
  { pose proof (Int_part_bounds (scaled_log value) 3276800 Hrange). lia. }
  unfold uint32 at 1. rewrite (wrap_small 32 _ Hint).
  eexists. split; reflexivity.
Qed.

Lemma scaled_log_one : (0 < scaled_log 1 < 1)%R.
Proof.
  unfold scaled_log, uniform_of. rewrite pow2_32.
  set (y := (1 - 1 / 4294967296)%R).
  assert (Hy : (0 < y < 1)%R) by (unfold y; lra).
  pose proof (neg_ln_upper y Hy) as Hup.
  assert (Hneg : (ln y < 0)%R).
  { rewrite <- ln_1. apply ln_increasing; lra. }
  assert (Hsmall : ((1 - y) / y <= / 102400)%R).
  { unfold y. apply Rmult_le_reg_r with (1 - 1 / 4294967296)%R; [lra|].
    unfold Rdiv. rewrite Rmult_assoc, Rinv_l by lra. lra. }
  lra.
Qed.

Lemma UpdateCombinedLimit_real (ptr_bits : Z) (w : World) :
  32 <= ptr_bits ->
  0 <= alloc_ptr (m_eeAllocContext (w_thread w)) ->
  alloc_ptr (m_eeAllocContext (w_thread w)) <=
    alloc_limit (m_eeAllocContext (w_thread w)) ->
  alloc_limit (m_eeAllocContext (w_thread w)) < 2 ^ ptr_bits ->
  exists w',
    UpdateCombinedLimit ptr_bits (dbl := RealDouble) true w = Done tt w' /\
    combined_limit (m_eeAllocContext (w_thread w')) =
      alloc_ptr (m_eeAllocContext (w_thread w)) +
      Z.min (Int_part (scaled_log (uint32 (w_rng w (w_rngDraws w)))))
            (alloc_limit (m_eeAllocContext (w_thread w)) -
             alloc_ptr (m_eeAllocContext (w_thread w))).
Proof.
  intros Hbits Hptr Hle Hlim.
  destruct (UpdateCombinedLimit_enabled_eq ptr_bits RealDouble w)
    as (r & w1 & Hdraw & _ & Hr & Heq).
  destruct (ComputeGeometricRandom_real w) as (w1' & Hreal & _).
  rewrite Hreal in Hdraw. inversion Hdraw; subst r w1'. clear Hdraw.
  set (c := m_eeAllocContext (w_thread w)) in *.
  set (B := Int_part (scaled_log (uint32 (w_rng w (w_rngDraws w))))) in *.
  assert (Hpow : 2 ^ 32 <= 2 ^ ptr_bits)
    by (apply Z.pow_le_mono_r; lia).
  rewrite (wrap_small ptr_bits B) in Heq by lia.
  rewrite (wrap_small ptr_bits (alloc_limit c - alloc_ptr c)) in Heq by lia.
  rewrite (wrap_small ptr_bits
             (alloc_ptr c + Z.min B (alloc_limit c - alloc_ptr c))) in Heq
    by lia.
  eexists. split; [exact Heq|]. reflexivity.
Qed.

(** C2, as the code has it: over the reals, the budget is the integer part
    (the floor, the product being non-negative) of [-ln(1-U) * 102400] for
    [U = value / 2^32], not its ceiling; [combined_limit] is then
    [alloc_ptr + min(budget, alloc_limit - alloc_ptr)], the minimum taken
    on the sizes before the pointer addition. *)
Theorem UpdateCombinedLimit_sampling_budget (ptr_bits : Z) (w : World)
    (Hbits : 32 <= ptr_bits)
    (Hptr : 0 <= alloc_ptr (m_eeAllocContext (w_thread w)))
    (Hle : alloc_ptr (m_eeAllocContext (w_thread w)) <=
           alloc_limit (m_eeAllocContext (w_thread w)))
    (Hlim : alloc_limit (m_eeAllocContext (w_thread w)) < 2 ^ ptr_bits) :
  exists budget wd w',
    ComputeGeometricRandom (dbl := RealDouble) w = Done budget wd /\
    (IZR budget <= scaled_log (uint32 (w_rng w (w_rngDraws w)))
       < IZR budget + 1)%R /\
    UpdateCombinedLimit ptr_bits (dbl := RealDouble) true w = Done tt w' /\
    combined_limit (m_eeAllocContext (w_thread w')) =
      alloc_ptr (m_eeAllocContext (w_thread w)) +
      Z.min budget
            (alloc_limit (m_eeAllocContext (w_thread w)) -
             alloc_ptr (m_eeAllocContext (w_thread w))).
Proof.
  destruct (ComputeGeometricRandom_real w) as (wd & Hdraw & _).
  destruct (UpdateCombinedLimit_real ptr_bits w Hbits Hptr Hle Hlim)
    as (w' & Hrun & Hlimit).
  exists (Int_part (scaled_log (uint32 (w_rng w (w_rngDraws w))))), wd, w'.
  split; [exact Hdraw|]. split; [|split; assumption].
  destruct (base_Int_part (scaled_log (uint32 (w_rng w (w_rngDraws w)))))
    as [Hfloor Hnear].
  lra.
Qed.

Lemma UpdateCombinedLimit_sampling_budget_witness :
  exists budget w',
    UpdateCombinedLimit 64 (dbl := RealDouble) true sampling_world = Done tt w' /\
    combined_limit (m_eeAllocContext (w_thread w')) =
      1000 + Z.min budget (1000000 - 1000).
Proof.
  destruct (UpdateCombinedLimit_sampling_budget 64 sampling_world)
    as (budget & wd & w' & _ & _ & Hrun & Hlimit);
    [lia | cbn; lia | cbn; lia | cbn; lia |].
  exists budget, w'. split; [exact Hrun | exact Hlimit].
Defined.

(** C2 fails as stated: for the generator output 1 the product lies
    strictly between 0 and 1, so the specification's ceiling is 1 while the
    code's cast gives 0, and the combined limit of the region from 1000 to
    1000000 comes out as 1000, not 1001. *)
Lemma budget_is_truncated_not_ceiled :
  uint32 (w_rng sampling_world (w_rngDraws sampling_world)) = 1 /\
  spec_budget 1 = 1 /\
  outcome_value (ComputeGeometricRandom (dbl := RealDouble) sampling_world)
    = Some 0 /\
  option_map (fun t => combined_limit (m_eeAllocContext t))
    (outcome_thread
       (UpdateCombinedLimit 64 (dbl := RealDouble) true sampling_world))
    = Some 1000 /\
  1000 + Z.min (spec_budget 1) (1000000 - 1000) = 1001.
Proof.
  pose proof scaled_log_one as [Hlo Hhi].
  assert (Hfloor : Int_part (scaled_log 1) = 0).
  { symmetry. apply Int_part_spec. simpl. lra. }
  assert (Hceil : spec_budget 1 = 1).
  { unfold spec_budget, Rceil.
    assert (H : Int_part (- scaled_log 1) = -1).
    { symmetry. apply Int_part_spec. simpl. lra. }
    rewrite H. reflexivity. }
  split; [reflexivity|]. split; [exact Hceil|]. split; [|split].
  - destruct (ComputeGeometricRandom_real sampling_world) as (w' & Hrun & _).
    rewrite Hrun. cbn [outcome_value].
    change (uint32 (w_rng sampling_world (w_rngDraws sampling_world))) with 1.
    rewrite Hfloor. reflexivity.
  - destruct (UpdateCombinedLimit_real 64 sampling_world) as (w' & Hrun & Hlimit);
      [lia | cbn; lia | cbn; lia | cbn; lia |].
    rewrite Hrun. cbn [outcome_thread option_map]. rewrite Hlimit.
    change (uint32 (w_rng sampling_world (w_rngDraws sampling_world))) with 1.
    rewrite Hfloor. reflexivity.
  - rewrite Hceil. reflexivity.
Qed.

(** ** Thread state flags *)

Lemma uint32_land_ones (z : Z) : uint32 z = Z.land z (Z.ones 32).
Proof. unfold uint32, wrap. symmetry. apply Z.land_ones. lia. Qed.

Lemma land_covers_lor (x a b : Z) :
  (Z.land x (Z.lor a b) =? Z.lor a b) =
  (Z.land x a =? a) && (Z.land x b =? b).
Proof.
  apply eq_true_iff_eq. rewrite andb_true_iff, !Z.eqb_eq. split.
  - intros H. split; apply Z.bits_inj'; intros n _;
      apply (f_equal (fun z => Z.testbit z n)) in H;
      rewrite ?Z.land_spec, ?Z.lor_spec in *;
      destruct (Z.testbit x n), (Z.testbit a n), (Z.testbit b n);
      simpl in *; congruence.
  - intros [Ha Hb]. rewrite Z.land_lor_distr_r, Ha, Hb. reflexivity.
Qed.

(** X1: [IsStateSet] asks for all the bits of its argument: a union of two
    flag sets is set exactly when both are, and the empty set of flags
    ([0]) counts as set in every thread. *)
Theorem IsStateSet_all_bits (t : Thread) (a b : Z) :
  IsStateSet t (Z.lor a b) = IsStateSet t a && IsStateSet t b /\
  IsStateSet t 0 = true.
Proof.
  split.
  - unfold IsStateSet. rewrite !uint32_land_ones, Z.land_lor_distr_l.
    apply land_covers_lor.
  - unfold IsStateSet. rewrite uint32_land_ones.
    change (Z.land 0 (Z.ones 32)) with 0. rewrite Z.land_0_r. reflexivity.
Qed.

Example IsStateSet_attached_and_do_not_trigger :
  map (fun flags =>
         IsStateSet (sample_thread 0 flags (sample_context 0 0))
           (Z.lor flag_Attached flag_DoNotTriggerGc))
      [0; 1; 16; 17; 49]
  = [false; false; false; true; true].
Proof. reflexivity. Qed.

(** ** Stack bounds, both readers *)

(** X2: [GetStackBounds] and [IsWithinStackBounds] agree.  With non-zero
    bounds both return without changing the state, and a pointer is within
    the stack exactly when it lies in the half-open interval
    [GetStackBounds] reports; when the interval is empty or reversed no
    pointer is within it.  With a zero bound both stop a debug build. *)
Theorem GetStackBounds_agrees (debug : bool) (w : World) (p : ptr)
    (Hlow : m_pStackLow (w_thread w) <> 0)
    (Hhigh : m_pStackHigh (w_thread w) <> 0) :
  exists lo hi b,
    GetStackBounds debug w = Done (lo, hi) w /\
    IsWithinStackBounds debug p w = Done b w /\
    (b = true <-> lo <= p < hi) /\
    (hi <= lo -> b = false) /\
    (forall w0 : World,
       m_pStackLow (w_thread w0) = 0 \/ m_pStackHigh (w_thread w0) = 0 ->
       GetStackBounds true w0 = Fatal w0 /\
       IsWithinStackBounds true p w0 = Fatal w0).
Proof.
  exists (m_pStackLow (w_thread w)), (m_pStackHigh (w_thread w)),
    ((m_pStackLow (w_thread w) <=? p) && (p <? m_pStackHigh (w_thread w))).
  assert (Hassert :
    negb (m_pStackLow (w_thread w) =? 0) &&
    negb (m_pStackHigh (w_thread w) =? 0) = true).
  { apply andb_true_iff. split; apply negb_true_iff, Z.eqb_neq; assumption. }
  split; [|split; [|split; [|split]]].
  - unfold GetStackBounds. run.
    destruct debug; cbn beta iota; rewrite ?Hassert; reflexivity.
  - unfold IsWithinStackBounds. run.
    destruct debug; cbn beta iota; rewrite ?Hassert; reflexivity.
  - rewrite andb_true_iff, Z.leb_le, Z.ltb_lt. tauto.
  - intros Hempty. apply andb_false_iff.
    destruct (Z.leb_spec (m_pStackLow (w_thread w)) p); [|now left].
    right. apply Z.ltb_ge. lia.
  - intros w0 Hz.
    assert (Hoff :
      negb (m_pStackLow (w_thread w0) =? 0) &&
      negb (m_pStackHigh (w_thread w0) =? 0) = false).
    { destruct Hz as [-> | ->]; [reflexivity | apply andb_false_r]. }
    unfold GetStackBounds, IsWithinStackBounds. run.
    rewrite Hoff. split; reflexivity.
Qed.

Lemma GetStackBounds_agrees_witness :
  exists b,
    GetStackBounds true cooperative_world = Done (4096, 8192) cooperative_world /\
    IsWithinStackBounds true 8191 cooperative_world = Done b cooperative_world /\
    b = true.
Proof.
  destruct (GetStackBounds_agrees true cooperative_world 8191)
    as (lo & hi & b & Hget & Hin & Hiff & _); [cbn; lia | cbn; lia |].
  assert (Hget' : GetStackBounds true cooperative_world =
                  Done (4096, 8192) cooperative_world) by reflexivity.
  rewrite Hget' in Hget. inversion Hget; subst lo hi.
  exists b. split; [exact Hget'|]. split; [exact Hin|].
  apply Hiff. lia.
Defined.

Example stress_log_round_trip :
  outcome_value
    ((SetThreadStressLog 4242;; GetThreadStressLog) cooperative_world)
  = Some 4242.
Proof. reflexivity. Qed.

(** ** Single crossings, state by state *)

Lemma with_transitionFrame_same (t : Thread) :
  with_transitionFrame (m_pTransitionFrame t) t = t.
Proof. destruct t. reflexivity. Qed.

Lemma InlinePInvoke_run (debug : bool) (TSF_DoNotTriggerGc : Z)
    (pFrame : ptr) (w : World) :
  pFrame <> NULL ->
  debug = false \/ IsDoNotTriggerGcSet TSF_DoNotTriggerGc (w_thread w) = false ->
  InlinePInvoke debug TSF_DoNotTriggerGc pFrame w = Done tt (pinvoke_world pFrame w).
Proof.
  intros Hp Hpre.
  unfold InlinePInvoke, VolatileStoreWithoutBarrier, pinvoke_world. run.
  assert (Hne : (pFrame =? NULL) = false) by (apply Z.eqb_neq; exact Hp).
  destruct Hpre as [-> | Hd].
  - cbn beta iota. rewrite Hne. reflexivity.
  - destruct debug; cbn beta iota; rewrite ?Hd; cbn; rewrite Hne; reflexivity.
Qed.

Lemma InlinePInvokeReturn_quiet
    (RhpWaitForGC2_returns : ptr -> Thread -> Memory -> Thread * Memory)
    (pFrame : ptr) (w : World) :
  next_trap w = false ->
  InlinePInvokeReturn RhpWaitForGC2_returns pFrame w =
    Done tt (cooperative_checked_world w).
Proof.
  intros Htrap.
  unfold InlinePInvokeReturn, VolatileStoreWithoutBarrier,
    IsTrapThreadsRequested, cooperative_checked_world, trap_read_world.
  unfold next_trap in Htrap. run. cbn. rewrite Htrap. reflexivity.
Qed.

(** The ordinary path of the fast reverse entry, with the state it ends
    in: cooperative when no suspension is requested, put back otherwise. *)
Lemma TryFast_ordinary_world (debug : bool) (TSF_Attached TSF_DoNotTriggerGc : Z)
    (IsGCSpecial : Thread -> bool) (pFrame : ptr) (w : World) :
  pFrame <> NULL ->
  IsDoNotTriggerGcSet TSF_DoNotTriggerGc (w_thread w) = false ->
  IsStateSet (w_thread w) TSF_Attached = true ->
  m_pTransitionFrame (w_thread w) <> NULL ->
  debug = false \/ IsGCSpecial (w_thread w) = false ->
  InlineTryFastReversePInvoke debug TSF_Attached TSF_DoNotTriggerGc
    IsGCSpecial pFrame w =
  if next_trap w then
    Done false
      (emit (EvPlainStore (m_pTransitionFrame (w_thread w)))
         (set_thread (w_thread w)
            (cooperative_checked_world (saved_world pFrame w))))
  else
    Done true (cooperative_checked_world (saved_world pFrame w)).
Proof.
  intros Hp Hd Ha Hc Hg.
  unfold InlineTryFastReversePInvoke, VolatileStoreWithoutBarrier,
    IsTrapThreadsRequested. run.
  destruct (Z.eqb_spec pFrame NULL) as [?|_]; [contradiction|].
  unfold IsCurrentThreadInCooperativeMode.
  cbn [w_thread set_mem emit set_thread].
  rewrite Hd, Ha. cbn.
  destruct (Z.eqb_spec (m_pTransitionFrame (w_thread w)) NULL) as [?|_];
    [contradiction|].
  assert (Hok : negb debug || negb (IsGCSpecial (w_thread w)) = true)
    by (destruct Hg as [-> | ->]; [reflexivity | apply orb_true_r]).
  clear Hg.
  unfold next_trap, cooperative_checked_world, trap_read_world, saved_world.
  revert Hok. destruct debug; cbn; intros Hok; rewrite ?Hok; cbn;
    destruct (w_trap w (w_trapReads w)); cbn;
    rewrite ?lookup_insert_eq; try reflexivity;
    destruct (w_thread w); reflexivity.
Qed.

(** ** Nested crossings *)

Lemma preserved_refl (live : list ptr) (w : World) : preserved live w w.
Proof. unfold preserved. auto. Qed.

Lemma preserved_trans (live : list ptr) (a b c : World) :
  preserved live a b -> preserved live b c -> preserved live a c.
Proof.
  intros (Ht1 & Hs1 & Hp1 & Hr1 & Hm1) (Ht2 & Hs2 & Hp2 & Hr2 & Hm2).
  unfold preserved. repeat split; try congruence; try lia.
  intros r Hr. rewrite Hm2, Hm1; auto.
Qed.

Lemma quiet_later (a b : World) :
  w_trap b = w_trap a -> (w_trapReads a <= w_trapReads b)%nat ->
  quiet a -> quiet b.
Proof.
  intros Htrap Hreads Hq k Hk. rewrite Htrap. apply Hq. lia.
Qed.

Section CrossingRuns.

Variable debug : bool.
Variables TSF_Attached TSF_DoNotTriggerGc : Z.
Variable IsGCSpecial : Thread -> bool.
Variable RhpWaitForGC2_returns : ptr -> Thread -> Memory -> Thread * Memory.

Local Abbreviation run :=
  (run_crossings debug TSF_Attached TSF_DoNotTriggerGc IsGCSpecial
     RhpWaitForGC2_returns).

Lemma run_crossings_app (a b : list CrossOp) (w : World) :
  run (a ++ b) w =
  match run a w with
  | Done true w' => run b w'
  | Done false w' => Done false w'
  | Fatal w' => Fatal w'
  | Fault w' => Fault w'
  end.
Proof.
  revert w. induction a as [|o a IH]; intros w; [reflexivity|].
  destruct o as [f | f | r | r]; cbn [run_crossings app];
    cbv beta delta [mbind M_bind]; cbn beta iota.
  - destruct (InlinePInvoke _ _ f w); auto.
  - destruct (InlinePInvokeReturn _ f w); auto.
  - destruct (InlineTryFastReversePInvoke _ _ _ _ r w) as [[|] w'| |]; auto.
  - destruct (InlineReversePInvokeReturn r w); auto.
Qed.

(** A properly nested sequence of crossings on an ordinary thread, with no
    suspension requested, takes every fast path and hands the thread back
    as it was. *)
Lemma Crossings_run (live : list ptr) (tf : ptr) (ops : list CrossOp) :
  Crossings live tf ops ->
  forall w : World,
    m_pTransitionFrame (w_thread w) = tf ->
    IsStateSet (w_thread w) TSF_Attached = true ->
    IsDoNotTriggerGcSet TSF_DoNotTriggerGc (w_thread w) = false ->
    (debug = false \/
     forall v, IsGCSpecial (with_transitionFrame v (w_thread w)) = false) ->
    quiet w ->
    exists w', run ops w = Done true w' /\ preserved live w w'.
Proof.
  induction 1 as
    [ live tf
    | live f native rest Hf _ IHnative _ IHrest
    | live tf r managed rest Htf0 Hr Hfresh _ IHmanaged _ IHrest ];
    intros w Htf Ha Hd Hg Hq.
  - exists w. split; [reflexivity | apply preserved_refl].
  - (* managed code calls out through [f] *)
    pose proof (InlinePInvoke_run debug TSF_DoNotTriggerGc f w Hf
                  (or_intror Hd)) as Hcall.
    destruct (IHnative (pinvoke_world f w)) as (w2 & Hrun2 & P2);
      [reflexivity | exact Ha | exact Hd | exact Hg | exact Hq |].
    destruct P2 as (Ht2 & Hs2 & Hp2 & Hr2 & Hm2).
    assert (Hquiet2 : next_trap w2 = false).
    { unfold next_trap. rewrite Hp2. apply Hq. exact Hr2. }
    pose proof (InlinePInvokeReturn_quiet RhpWaitForGC2_returns f w2 Hquiet2)
      as Hret.
    assert (Ht3 : w_thread (cooperative_checked_world w2) = w_thread w).
    { transitivity (with_transitionFrame (m_pTransitionFrame (w_thread w))
                      (w_thread w)); [|apply with_transitionFrame_same].
      rewrite Htf. cbn. rewrite Ht2. reflexivity. }
    destruct (IHrest (cooperative_checked_world w2)) as (w4 & Hrun4 & P4).
    + rewrite Ht3. exact Htf.
    + rewrite Ht3. exact Ha.
    + rewrite Ht3. exact Hd.
    + rewrite Ht3. exact Hg.
    + apply (quiet_later w); [exact Hp2 | cbn; cbn in Hr2; lia | exact Hq].
    + exists w4. split.
      * cbn [run_crossings]. cbv beta delta [mbind M_bind]. cbn beta iota.
        rewrite Hcall, run_crossings_app, Hrun2.
        cbn [run_crossings]. cbv beta delta [mbind M_bind]. cbn beta iota.
        rewrite Hret. exact Hrun4.
      * apply (preserved_trans live w (cooperative_checked_world w2) w4);
          [|exact P4].
        unfold preserved. split; [exact Ht3|]. split; [exact Hs2|].
        split; [exact Hp2|]. split; [cbn; cbn in Hr2; lia|].
        intros r Hr. cbn. rewrite Hm2 by exact Hr. reflexivity.
  - (* native code calls back through [r] *)
    assert (Hspecial : debug = false \/ IsGCSpecial (w_thread w) = false).
    { destruct Hg as [Hg | Hg]; [now left | right].
      rewrite <- (with_transitionFrame_same (w_thread w)). apply Hg. }
    assert (Hquiet : next_trap w = false) by (apply Hq; lia).
    pose proof (TryFast_ordinary_world debug TSF_Attached TSF_DoNotTriggerGc
                  IsGCSpecial r w Hr Hd Ha ltac:(rewrite Htf; exact Htf0)
                  Hspecial) as Hcall.
    rewrite Hquiet in Hcall.
    set (w1 := cooperative_checked_world (saved_world r w)) in *.
    destruct (IHmanaged w1) as (w2 & Hrun2 & P2);
      [reflexivity | exact Ha | exact Hd | exact Hg
      | apply (quiet_later w); [reflexivity | cbn; lia | exact Hq] |].
    destruct P2 as (Ht2 & Hs2 & Hp2 & Hr2 & Hm2).
    assert (Hsaved : frame_saved (w_mem w2) !! r =
                     Some (m_pTransitionFrame (w_thread w))).
    { rewrite Hm2 by now left. cbn. apply lookup_insert_eq. }
    pose proof (ReversePInvokeReturn_run r _ w2 Hsaved) as Hret.
    set (w3 := emit (EvVolatileStore (m_pTransitionFrame (w_thread w)))
                 (set_thread
                    (with_transitionFrame (m_pTransitionFrame (w_thread w))
                       (w_thread w2)) w2)) in *.
    assert (Ht3 : w_thread w3 = w_thread w).
    { transitivity (with_transitionFrame (m_pTransitionFrame (w_thread w))
                      (w_thread w)); [|apply with_transitionFrame_same].
      unfold w3. cbn. rewrite Ht2. reflexivity. }
    destruct (IHrest w3) as (w4 & Hrun4 & P4).
    + rewrite Ht3. exact Htf.
    + rewrite Ht3. exact Ha.
    + rewrite Ht3. exact Hd.
    + rewrite Ht3. exact Hg.
    + apply (quiet_later w); [exact Hp2 | cbn; cbn in Hr2; lia | exact Hq].
    + exists w4. split.
      * cbn [run_crossings]. cbv beta delta [mbind M_bind]. cbn beta iota.
        rewrite Hcall, run_crossings_app, Hrun2.
        cbn [run_crossings]. cbv beta delta [mbind M_bind]. cbn beta iota.
        rewrite Hret. exact Hrun4.
      * apply (preserved_trans live w w3 w4); [|exact P4].
        unfold preserved. split; [exact Ht3|]. split; [exact Hs2|].
        split; [exact Hp2|]. split; [cbn; cbn in Hr2; lia|].
        intros r' Hr'. cbn. rewrite Hm2 by now right. cbn.
        apply lookup_insert_ne. intros ->. contradiction.
Qed.

End CrossingRuns.

(** X11: a properly nested sequence of boundary crossings, run on an
    attached thread with do-not-trigger-GC clear that is not GC-special (or
    in a release build) while no suspension is requested, takes the fast
    path at every reverse entry and ends with the thread exactly as it
    began: same mode, same transition frame; the reverse frames that were
    in use keep their saved values. *)
Theorem nested_crossings_restore_thread
    (debug : bool) (TSF_Attached TSF_DoNotTriggerGc : Z)
    (IsGCSpecial : Thread -> bool)
    (RhpWaitForGC2_returns : ptr -> Thread -> Memory -> Thread * Memory)
    (live : list ptr) (ops : list CrossOp) (w : World)
    (Hnested : Crossings live (m_pTransitionFrame (w_thread w)) ops)
    (Hattached : IsStateSet (w_thread w) TSF_Attached = true)
    (Hclear : IsDoNotTriggerGcSet TSF_DoNotTriggerGc (w_thread w) = false)
    (Hordinary :
       debug = false \/
       forall v, IsGCSpecial (with_transitionFrame v (w_thread w)) = false)
    (Hquiet : quiet w) :
  exists w',
    run_crossings debug TSF_Attached TSF_DoNotTriggerGc IsGCSpecial
      RhpWaitForGC2_returns ops w = Done true w' /\
    w_thread w' = w_thread w /\
    forall r, In r live ->
      frame_saved (w_mem w') !! r = frame_saved (w_mem w) !! r.
Proof.
  destruct (Crossings_run debug TSF_Attached TSF_DoNotTriggerGc IsGCSpecial
              RhpWaitForGC2_returns live _ ops Hnested w eq_refl Hattached
              Hclear Hordinary Hquiet)
    as (w' & Hrun & Hthr & _ & _ & _ & Hmem).
  exists w'. auto.
Qed.

Lemma nested_crossings_restore_thread_witness :
  exists w',
    run_crossings true flag_Attached flag_DoNotTriggerGc sample_IsGCSpecial
      sample_wait
      [OpPInvoke 600; OpReversePInvoke 500; OpPInvoke 700; OpPInvokeReturn 700;
       OpReversePInvokeReturn 500; OpPInvokeReturn 600] cooperative_world
      = Done true w' /\
    w_thread w' = w_thread cooperative_world.
Proof.
  destruct (nested_crossings_restore_thread true flag_Attached
              flag_DoNotTriggerGc sample_IsGCSpecial sample_wait []
              [OpPInvoke 600; OpReversePInvoke 500; OpPInvoke 700;
               OpPInvokeReturn 700; OpReversePInvokeReturn 500;
               OpPInvokeReturn 600] cooperative_world)
    as (w' & Hrun & Hthr & _).
  - apply (Crossings_pinvoke [] 600
             [OpReversePInvoke 500; OpPInvoke 700; OpPInvokeReturn 700;
              OpReversePInvokeReturn 500] []).
    + unfold NULL. lia.
    + apply (Crossings_reverse [] 600 500
               [OpPInvoke 700; OpPInvokeReturn 700] []).
      * unfold NULL. lia.
      * unfold NULL. lia.
      * cbn. tauto.
      * apply (Crossings_pinvoke [500] 700 [] []).
        -- unfold NULL. lia.
        -- apply Crossings_nil.
        -- apply Crossings_nil.
      * apply Crossings_nil.
    + apply Crossings_nil.
  - reflexivity.
  - reflexivity.
  - right. intros v. reflexivity.
  - intros k _. reflexivity.
  - exists w'. split; assumption.
Defined.

Example nested_crossings_trace :
  outcome_trace
    (run_crossings true flag_Attached flag_DoNotTriggerGc sample_IsGCSpecial
       sample_wait
       [OpPInvoke 600; OpReversePInvoke 500; OpReversePInvokeReturn 500;
        OpPInvokeReturn 600] cooperative_world)
  = [EvFrameThread 600 77; EvVolatileStore 600;
     EvFrameSaved 500 600; EvVolatileStore NULL; EvTrapRead false;
     EvVolatileStore 600;
     EvVolatileStore NULL; EvTrapRead false].
Proof. vm_compute. reflexivity. Qed.

(** X12: what a returning [InlineTryFastReversePInvoke] has done.  It has
    written the entry transition frame into the caller's reverse frame and
    touched no other memory; it has changed the thread only when it
    returns [true] with do-not-trigger-GC clear, and then only by making
    the transition frame null.  A [false] result leaves the thread as it
    was. *)
Theorem InlineTryFastReversePInvoke_effect
    (debug : bool) (TSF_Attached TSF_DoNotTriggerGc : Z)
    (IsGCSpecial : Thread -> bool) (pFrame : ptr) (w w1 : World) (b : bool)
    (Hframe : pFrame <> NULL)
    (Hrun : InlineTryFastReversePInvoke debug TSF_Attached TSF_DoNotTriggerGc
              IsGCSpecial pFrame w = Done b w1) :
  w_thread w1 =
    (if b && negb (IsDoNotTriggerGcSet TSF_DoNotTriggerGc (w_thread w))
     then with_transitionFrame NULL (w_thread w)
     else w_thread w) /\
  w_mem w1 =
    with_frame_saved
      (<[pFrame := m_pTransitionFrame (w_thread w)]> (frame_saved (w_mem w)))
      (w_mem w).
Proof.
  destruct (IsDoNotTriggerGcSet TSF_DoNotTriggerGc (w_thread w)) eqn:Hd.
  - rewrite (TryFast_do_not_trigger _ _ _ _ pFrame w Hframe Hd) in Hrun.
    rewrite andb_false_r.
    destruct debug; [destruct (next_trap _)|]; inversion Hrun; subst;
      split; reflexivity.
  - rewrite andb_true_r.
    destruct (IsStateSet (w_thread w) TSF_Attached) eqn:Ha.
    2:{ rewrite (TryFast_not_attached _ _ _ _ pFrame w Hframe Hd Ha) in Hrun.
        inversion Hrun; subst. split; reflexivity. }
    destruct (Z.eq_dec (m_pTransitionFrame (w_thread w)) NULL) as [Hc|Hc].
    { rewrite (TryFast_cooperative _ _ _ _ pFrame w Hframe Hd Hc) in Hrun.
      inversion Hrun; subst. split; reflexivity. }
    assert (Hgate : (debug = true /\ IsGCSpecial (w_thread w) = true) \/
                    (debug = false \/ IsGCSpecial (w_thread w) = false))
      by (destruct debug, (IsGCSpecial (w_thread w)); auto).
    destruct Hgate as [[Hdbg Hg] | Hg].
    + rewrite (TryFast_gc_special_debug _ _ _ _ pFrame w Hdbg Hframe Hd Ha Hc Hg)
        in Hrun. discriminate.
    + rewrite (TryFast_ordinary_world _ _ _ _ pFrame w Hframe Hd Ha Hc Hg)
        in Hrun.
      destruct (next_trap w); inversion Hrun; subst; split; reflexivity.
Qed.

Lemma InlineTryFastReversePInvoke_effect_witness :
  w_thread (cooperative_checked_world (saved_world 500 (preemptive_world false)))
  = with_transitionFrame NULL (w_thread (preemptive_world false)).
Proof.
  apply (InlineTryFastReversePInvoke_effect true flag_Attached
           flag_DoNotTriggerGc sample_IsGCSpecial 500
           (preemptive_world false) _ true).
  - unfold NULL. lia.
  - reflexivity.
Defined.

(** X13: on the ordinary path (attached, preemptive, do-not-trigger-GC
    clear, not GC-special or release build) the fast reverse entry makes
    the thread cooperative with a volatile store before its single read of
    the trap flag, returns the negation of what it read, and, when a
    suspension is requested, puts the entry frame back with a plain store
    after that read. *)
Theorem InlineTryFastReversePInvoke_publish_then_check
    (debug : bool) (TSF_Attached TSF_DoNotTriggerGc : Z)
    (IsGCSpecial : Thread -> bool) (pFrame : ptr) (w : World)
    (Hframe : pFrame <> NULL)
    (Hclear : IsDoNotTriggerGcSet TSF_DoNotTriggerGc (w_thread w) = false)
    (Hattached : IsStateSet (w_thread w) TSF_Attached = true)
    (Hpreemptive : m_pTransitionFrame (w_thread w) <> NULL)
    (Hordinary : debug = false \/ IsGCSpecial (w_thread w) = false) :
  exists w',
    InlineTryFastReversePInvoke debug TSF_Attached TSF_DoNotTriggerGc
      IsGCSpecial pFrame w = Done (negb (next_trap w)) w' /\
    w_trapReads w' = S (w_trapReads w) /\
    w_trace w' =
      w_trace w ++
      [EvFrameSaved pFrame (m_pTransitionFrame (w_thread w));
       EvVolatileStore NULL; EvTrapRead (next_trap w)] ++
      (if next_trap w
       then [EvPlainStore (m_pTransitionFrame (w_thread w))] else []).
Proof.
  rewrite (TryFast_ordinary_world debug TSF_Attached TSF_DoNotTriggerGc
             IsGCSpecial pFrame w Hframe Hclear Hattached Hpreemptive
             Hordinary).
  unfold next_trap.
  destruct (w_trap w (w_trapReads w)) eqn:Htrap;
    (eexists; split; [reflexivity|]); cbn; rewrite Htrap;
    (split; [reflexivity|]); rewrite <- !app_assoc; reflexivity.
Qed.

Lemma InlineTryFastReversePInvoke_publish_then_check_witness :
  exists w',
    InlineTryFastReversePInvoke true flag_Attached flag_DoNotTriggerGc
      sample_IsGCSpecial 500 (preemptive_world true) = Done false w' /\
    w_trace w' =
      [EvFrameSaved 500 300; EvVolatileStore NULL; EvTrapRead true;
       EvPlainStore 300].
Proof.
  destruct (InlineTryFastReversePInvoke_publish_then_check true flag_Attached
              flag_DoNotTriggerGc sample_IsGCSpecial 500 (preemptive_world true))
    as (w' & Hrun & _ & Htrace).
  - unfold NULL. lia.
  - reflexivity.
  - reflexivity.
  - cbn. unfold NULL. lia.
  - right. reflexivity.
  - exists w'. split; [exact Hrun | exact Htrace].
Defined.

(** ** The deferred transition frame *)

(** X3: the two writers of the deferred slot belong to opposite modes.  On
    a thread in cooperative mode a debug build stops in
    [DeferTransitionFrame]; once [InlinePInvoke] has published a frame,
    [DeferTransitionFrame] returns in either build with that frame in the
    deferred slot and the mode unchanged, and it is
    [SetDeferredTransitionFrame] that stops a debug build. *)
Theorem deferred_frame_follows_mode
    (debug : bool) (TSF_DoNotTriggerGc : Z)
    (IsHijackTargetRIP : World -> ptr -> bool) (pFrame other : ptr) (w : World)
    (Hframe : pFrame <> NULL)
    (Hcoop : m_pTransitionFrame (w_thread w) = NULL)
    (Hpre : debug = false \/
            IsDoNotTriggerGcSet TSF_DoNotTriggerGc (w_thread w) = false) :
  DeferTransitionFrame true w = Fatal w /\
  exists w1 w2,
    InlinePInvoke debug TSF_DoNotTriggerGc pFrame w = Done tt w1 /\
    DeferTransitionFrame debug w1 = Done tt w2 /\
    w_thread w2 =
      with_deferredTransitionFrame pFrame
        (with_transitionFrame pFrame (w_thread w)) /\
    SetDeferredTransitionFrame true IsHijackTargetRIP other w1 = Fatal w1.
Proof.
  assert (Hne : (pFrame =? NULL) = false) by (apply Z.eqb_neq; exact Hframe).
  split.
  - unfold DeferTransitionFrame, IsCurrentThreadInCooperativeMode. run.
    rewrite Hcoop. reflexivity.
  - exists (pinvoke_world pFrame w).
    exists (set_thread
              (with_deferredTransitionFrame pFrame
                 (with_transitionFrame pFrame (w_thread w)))
              (pinvoke_world pFrame w)).
    split; [apply InlinePInvoke_run; assumption|].
    split; [|split].
    + unfold DeferTransitionFrame, IsCurrentThreadInCooperativeMode. run.
      destruct debug; cbn; rewrite ?Hne; reflexivity.
    + reflexivity.
    + unfold SetDeferredTransitionFrame, IsCurrentThreadInCooperativeMode.
      run. cbn. rewrite Hne. reflexivity.
Qed.

Lemma deferred_frame_follows_mode_witness :
  exists w1 w2,
    InlinePInvoke true flag_DoNotTriggerGc 600 cooperative_world = Done tt w1 /\
    DeferTransitionFrame true w1 = Done tt w2 /\
    m_pDeferredTransitionFrame (w_thread w2) = 600.
Proof.
  destruct (deferred_frame_follows_mode true flag_DoNotTriggerGc sample_hijack
              600 900 cooperative_world)
    as (_ & w1 & w2 & Hcall & Hdefer & Hthr & _).
  - unfold NULL. lia.
  - reflexivity.
  - right. reflexivity.
  - exists w1, w2. split; [exact Hcall|]. split; [exact Hdefer|].
    rewrite Hthr. reflexivity.
Defined.

Example SetDeferredTransitionFrame_cooperative :
  option_map (fun t => (m_pTransitionFrame t, m_pDeferredTransitionFrame t))
    (outcome_thread
       (SetDeferredTransitionFrame true sample_hijack 900 cooperative_world))
  = Some (NULL, 900).
Proof. reflexivity. Qed.

Example SetDeferredTransitionFrame_hijack_target :
  is_fatal
    (SetDeferredTransitionFrame true (fun _ _ => true) 900 cooperative_world)
  = true.
Proof. reflexivity. Qed.

(** ** Out-of-order and repeated registrations *)

Lemma reg_chain_split (next : gmap Z Z) (l1 l2 : list ptr) (n : ptr) :
  forall head,
    reg_chain next head (l1 ++ n :: l2) ->
    exists nx, next !! n = Some nx /\ reg_chain next nx l2.
Proof.
  induction l1 as [|a l1 IH]; intros head; cbn.
  - intros (_ & _ & nx & Hnx & Hrest). eauto.
  - intros (_ & _ & ax & _ & Hrest). apply (IH ax). exact Hrest.
Qed.

(** X9: a release build does not check the order of unregistrations.
    Popping a node from the middle of the list returns and makes that
    node's successor the head: the node and every node registered after it
    drop out of the list together. *)
Theorem PopGCFrameRegistration_release_truncates
    (w : World) (above below : list ptr) (n : ptr)
    (Hchain : reg_chain (reg_next (w_mem w))
                (m_pGCFrameRegistrations (w_thread w)) (above ++ n :: below)) :
  exists w',
    PopGCFrameRegistration false n w = Done tt w' /\
    w_mem w' = w_mem w /\
    reg_chain (reg_next (w_mem w')) (m_pGCFrameRegistrations (w_thread w'))
      below.
Proof.
  destruct (reg_chain_split _ above below n _ Hchain) as (nx & Hnx & Hrest).
  exists (set_thread (with_gcFrameRegistrations nx (w_thread w)) w).
  split; [|split; [reflexivity | exact Hrest]].
  unfold PopGCFrameRegistration. run. rewrite Hnx. reflexivity.
Qed.

Lemma PopGCFrameRegistration_release_truncates_witness :
  exists w',
    PopGCFrameRegistration false 10 (pushed 30 (pushed 20 (pushed 10 cooperative_world)))
      = Done tt w' /\
    m_pGCFrameRegistrations (w_thread w') = NULL.
Proof.
  destruct (PopGCFrameRegistration_release_truncates
              (pushed 30 (pushed 20 (pushed 10 cooperative_world)))
              [30; 20] [] 10) as (w' & Hrun & _ & Hchain).
  - cbn. repeat split; try (unfold NULL; lia).
    exists 20. split; [reflexivity|]. repeat split; try (unfold NULL; lia).
    exists 10. split; [reflexivity|]. repeat split; try (unfold NULL; lia).
    exists NULL. split; reflexivity.
  - exists w'. split; [exact Hrun | exact Hchain].
Defined.

Lemma reg_chain_nonnull (next : gmap Z Z) (l : list ptr) (n : ptr) :
  forall head, reg_chain next head l -> In n l -> n <> NULL.
Proof.
  induction l as [|a l IH]; intros head; cbn; [tauto|].
  intros (_ & Ha & ax & _ & Hrest) [-> | Hin]; [exact Ha|].
  apply (IH ax); assumption.
Qed.

(** Once [n] points back at [back], a walk that starts anywhere on a chain
    through [n] comes to [back] again, strictly later. *)
Lemma reg_chain_returns (next : gmap Z Z) (n back : ptr) (s : list ptr) :
  forall hx,
    reg_chain next hx s -> In n s ->
    forall m, reg_chain (<[n := back]> next) hx m ->
    exists m', (length m' < length m)%nat /\
               reg_chain (<[n := back]> next) back m'.
Proof.
  induction s as [|a s IH]; intros hx; cbn; [tauto|].
  intros (-> & Ha & ax & Hax & Hrest) Hin m Hm.
  destruct m as [|a' m1]; cbn in Hm; [contradiction|].
  destruct Hm as (<- & _ & y & Hy & Hm1).
  destruct (Z.eq_dec a n) as [-> | Hne].
  - rewrite lookup_insert_eq in Hy. inversion Hy; subst y.
    exists m1. split; [cbn; lia | exact Hm1].
  - rewrite lookup_insert_ne in Hy by congruence.
    pose proof (eq_trans (eq_sym Hy) Hax) as Hsame.
    inversion Hsame; subst y.
    destruct Hin as [Heq | Hin]; [congruence|].
    destruct (IH ax Hrest Hin m1 Hm1) as (m' & Hlen & Hback).
    exists m'. split; [cbn; lia | exact Hback].
Qed.

Lemma reg_chain_never_ends (next : gmap Z Z) (n head : ptr) (l : list ptr) :
  reg_chain next head l -> In n l ->
  forall m, ~ reg_chain (<[n := head]> next) head m.
Proof.
  intros Hchain Hin.
  assert (Hbound : forall (k : nat) (m : list ptr),
            (length m < k)%nat -> ~ reg_chain (<[n := head]> next) head m).
  { induction k as [|k IH]; intros m Hk Hm; [lia|].
    destruct (reg_chain_returns next n head l head Hchain Hin m Hm)
      as (m' & Hlen & Hback).
    apply (IH m'); [lia | exact Hback]. }
  intros m. apply (Hbound (S (length m))). lia.
Qed.

(** X10: registering a node that is already in the list returns normally
    in either build and leaves a list that never reaches null: the node's
    link now points at the former head, from which the walk comes back to
    the node. *)
Theorem PushGCFrameRegistration_again_cycles
    (w : World) (l : list ptr) (n : ptr)
    (Hchain : reg_chain (reg_next (w_mem w))
                (m_pGCFrameRegistrations (w_thread w)) l)
    (Hin : In n l) :
  exists w',
    PushGCFrameRegistration n w = Done tt w' /\
    m_pGCFrameRegistrations (w_thread w') = n /\
    forall m,
      ~ reg_chain (reg_next (w_mem w')) (m_pGCFrameRegistrations (w_thread w')) m.
Proof.
  pose proof (reg_chain_nonnull _ l n _ Hchain Hin) as Hn.
  exists (pushed n w). split; [apply Push_run; exact Hn|].
  split; [reflexivity|].
  intros m Hm.
  change (reg_chain
            (<[n := m_pGCFrameRegistrations (w_thread w)]> (reg_next (w_mem w)))
            n m) in Hm.
  destruct m as [|a m1]; cbn [reg_chain] in Hm; [contradiction|].
  destruct Hm as (<- & _ & y & Hy & Hm1).
  rewrite lookup_insert_eq in Hy. inversion Hy; subst y.
  exact (reg_chain_never_ends _ n _ l Hchain Hin m1 Hm1).
Qed.

Lemma PushGCFrameRegistration_again_cycles_witness :
  exists w',
    PushGCFrameRegistration 10 (pushed 20 (pushed 10 cooperative_world))
      = Done tt w' /\
    ~ reg_chain (reg_next (w_mem w')) (m_pGCFrameRegistrations (w_thread w'))
        [10; 20; 10].
Proof.
  destruct (PushGCFrameRegistration_again_cycles
              (pushed 20 (pushed 10 cooperative_world)) [20; 10] 10)
    as (w' & Hrun & _ & Hcycle).
  - cbn. repeat split; try (unfold NULL; lia).
    exists 10. split; [reflexivity|]. repeat split; try (unfold NULL; lia).
    exists NULL. split; reflexivity.
  - cbn. tauto.
  - exists w'. split; [exact Hrun | apply Hcycle].
Defined.

Example registrations_after_repeated_push :
  match run_ops true [OpPush 10; OpPush 20; OpPush 10] cooperative_world with
  | Done _ w => world_registrations 6 w
  | _ => []
  end = [10; 20; 10; 20; 10; 20].
Proof. vm_compute. reflexivity. Qed.

(** ** More on the combined limit *)

(** X7: [UpdateCombinedLimit] writes [combined_limit] and nothing else in
    the thread, the memory or the trace; it consumes one generator output
    when sampling is enabled and none otherwise.  Whatever limit a sampling
    recompute leaves, the next recompute with sampling disabled puts
    [combined_limit] back at [alloc_limit]. *)
Theorem UpdateCombinedLimit_only_combined_limit
    (ptr_bits : Z) (dbl : DoubleOps) (samplingEnabled : bool) (w : World) :
  exists w' w'',
    UpdateCombinedLimit ptr_bits samplingEnabled w = Done tt w' /\
    with_eeAllocContext
      (with_combined_limit (combined_limit (m_eeAllocContext (w_thread w)))
         (m_eeAllocContext (w_thread w')))
      (w_thread w') = w_thread w /\
    w_mem w' = w_mem w /\
    w_trace w' = w_trace w /\
    w_rngDraws w' =
      (if samplingEnabled then S (w_rngDraws w) else w_rngDraws w) /\
    UpdateCombinedLimit ptr_bits false w' = Done tt w'' /\
    combined_limit (m_eeAllocContext (w_thread w'')) =
      alloc_limit (m_eeAllocContext (w_thread w)).
Proof.
  unfold UpdateCombinedLimit, ComputeGeometricRandom, NextDouble,
    minipal_xoshiro128pp_next.
  run.
  destruct samplingEnabled; cbn;
    (eexists; eexists; split; [reflexivity|]); cbn;
    repeat match goal with |- _ /\ _ => split end; try reflexivity;
    destruct (w_thread w) as [tf dtf lo hi fl regs lg [p l c]]; reflexivity.
Qed.

(** X6: with sampling enabled on a region with [alloc_ptr <= alloc_limit],
    a budget that covers the rest of the region leaves
    [combined_limit = alloc_limit], so nothing is sampled in this
    allocation context; a smaller budget puts [combined_limit] at
    [alloc_ptr + budget], strictly inside the region.  The budget is the
    value [ComputeGeometricRandom] returns. *)
Theorem UpdateCombinedLimit_budget_covers_region
    (ptr_bits : Z) (dbl : DoubleOps) (w : World)
    (Hbits : 32 <= ptr_bits)
    (Hptr : 0 <= alloc_ptr (m_eeAllocContext (w_thread w)))
    (Hle : alloc_ptr (m_eeAllocContext (w_thread w)) <=
           alloc_limit (m_eeAllocContext (w_thread w)))
    (Hlim : alloc_limit (m_eeAllocContext (w_thread w)) < 2 ^ ptr_bits) :
  exists budget wd w',
    ComputeGeometricRandom w = Done budget wd /\
    UpdateCombinedLimit ptr_bits true w = Done tt w' /\
    let c := m_eeAllocContext (w_thread w) in
    combined_limit (m_eeAllocContext (w_thread w')) =
      (if alloc_limit c - alloc_ptr c <=? budget
       then alloc_limit c
       else alloc_ptr c + budget).
Proof.
  destruct (UpdateCombinedLimit_enabled_eq ptr_bits dbl w)
    as (r & wd & Hdraw & _ & Hr & Heq).
  set (c := m_eeAllocContext (w_thread w)) in *.
  assert (Hpow : 2 ^ 32 <= 2 ^ ptr_bits) by (apply Z.pow_le_mono_r; lia).
  rewrite (wrap_small ptr_bits r) in Heq by lia.
  rewrite (wrap_small ptr_bits (alloc_limit c - alloc_ptr c)) in Heq by lia.
  rewrite (wrap_small ptr_bits
             (alloc_ptr c + Z.min r (alloc_limit c - alloc_ptr c))) in Heq
    by lia.
  exists r, wd. eexists. split; [exact Hdraw|]. split; [exact Heq|].
  cbn. fold c.
  destruct (Z.leb_spec (alloc_limit c - alloc_ptr c) r); lia.
Qed.

Lemma UpdateCombinedLimit_budget_covers_region_witness :
  exists w',
    UpdateCombinedLimit 64 (dbl := FixedBudget 4000000000) true sampling_world
      = Done tt w' /\
    combined_limit (m_eeAllocContext (w_thread w')) = 1000000.
Proof.
  destruct (UpdateCombinedLimit_budget_covers_region 64
              (FixedBudget 4000000000) sampling_world)
    as (budget & wd & w' & Hdraw & Hrun & Hlimit);
    [lia | cbn; lia | cbn; lia | cbn; lia |].
  exists w'. split; [exact Hrun|].
  assert (Hb : budget = 4000000000).
  { assert (Hd : ComputeGeometricRandom (dbl := FixedBudget 4000000000)
                   sampling_world =
                 Done 4000000000
                   (mkWorld 77 (w_thread sampling_world) empty_memory
                      (fun _ => false) 0 (fun _ => 1) 1 []))
      by reflexivity.
    rewrite Hd in Hdraw. inversion Hdraw. reflexivity. }
  rewrite Hlimit, Hb. reflexivity.
Defined.

(** X8: the bound [combined_limit <= alloc_limit] rests on
    [alloc_ptr <= alloc_limit].  If [alloc_ptr] is above [alloc_limit] (and
    at least [2 ^ 32] below the top of the address space), the size wraps
    to a value no budget reaches, and [combined_limit] comes out as
    [alloc_ptr + budget], above [alloc_limit]. *)
Theorem UpdateCombinedLimit_inverted_region
    (ptr_bits : Z) (dbl : DoubleOps) (w : World)
    (Hbits : 32 <= ptr_bits)
    (Hlim : 0 <= alloc_limit (m_eeAllocContext (w_thread w)))
    (Hinv : alloc_limit (m_eeAllocContext (w_thread w)) <
            alloc_ptr (m_eeAllocContext (w_thread w)))
    (Htop : alloc_ptr (m_eeAllocContext (w_thread w)) + 2 ^ 32 <= 2 ^ ptr_bits) :
  exists budget wd w',
    ComputeGeometricRandom w = Done budget wd /\
    UpdateCombinedLimit ptr_bits true w = Done tt w' /\
    combined_limit (m_eeAllocContext (w_thread w')) =
      alloc_ptr (m_eeAllocContext (w_thread w)) + budget /\
    alloc_limit (m_eeAllocContext (w_thread w')) <
      combined_limit (m_eeAllocContext (w_thread w')).
Proof.
  destruct (UpdateCombinedLimit_enabled_eq ptr_bits dbl w)
    as (r & wd & Hdraw & _ & Hr & Heq).
  set (c := m_eeAllocContext (w_thread w)) in *.
  assert (Hpow : 2 ^ 32 <= 2 ^ ptr_bits) by (apply Z.pow_le_mono_r; lia).
  rewrite (wrap_small ptr_bits r) in Heq by lia.
  assert (Hsize : wrap ptr_bits (alloc_limit c - alloc_ptr c) =
                  alloc_limit c - alloc_ptr c + 2 ^ ptr_bits).
  { unfold wrap.
    rewrite <- (Z.mod_add (alloc_limit c - alloc_ptr c) 1 (2 ^ ptr_bits))
      by lia.
    rewrite Z.mul_1_l. apply Z.mod_small. lia. }
  rewrite Hsize in Heq.
  rewrite Z.min_l in Heq by lia.
  rewrite (wrap_small ptr_bits (alloc_ptr c + r)) in Heq by lia.
  exists r, wd. eexists. split; [exact Hdraw|]. split; [exact Heq|].
  cbn. fold c. lia.
Qed.

Lemma UpdateCombinedLimit_inverted_region_witness :
  exists w',
    UpdateCombinedLimit 64 (dbl := FixedBudget 500) true
      (sample_world (sample_thread 0 1 (sample_context 2000 1000)) false)
      = Done tt w' /\
    1000 < combined_limit (m_eeAllocContext (w_thread w')).
Proof.
  destruct (UpdateCombinedLimit_inverted_region 64 (FixedBudget 500)
              (sample_world (sample_thread 0 1 (sample_context 2000 1000)) false))
    as (budget & wd & w' & _ & Hrun & _ & Habove);
    [lia | cbn; lia | cbn; lia | cbn; lia |].
  exists w'. split; [exact Hrun|].
  assert (Hl : alloc_limit (m_eeAllocContext (w_thread w')) = 1000).
  { assert (Hd : UpdateCombinedLimit 64 (dbl := FixedBudget 500) true
                   (sample_world (sample_thread 0 1 (sample_context 2000 1000))
                      false) =
                 Done tt
                   (mkWorld 77
                      (sample_thread 0 1 (mk_ee_alloc_context 2000 1000 2500))
                      empty_memory (fun _ => false) 0 (fun _ => 1) 1 []))
      by reflexivity.
    rewrite Hd in Hrun. inversion Hrun. reflexivity. }
  rewrite <- Hl. exact Habove.
Defined.

(** ** More on the draw, over the reals *)

(** X4: over the reals, [NextDouble] returns a number in [[0, 1)], as its
    comment says: the generator output divided by [2 ^ 32], hence at most
    [1 - 2 ^ -32].  The call consumes exactly one generator output and
    leaves the thread alone. *)
Theorem NextDouble_unit_interval (w : World) :
  exists (u : R) (w' : World),
    NextDouble (dbl := RealDouble) w = Done u w' /\
    u = uniform_of (uint32 (w_rng w (w_rngDraws w))) /\
    (0 <= u < 1)%R /\
    (u <= 1 - / 2 ^ 32)%R /\
    w_rngDraws w' = S (w_rngDraws w) /\
    w_thread w' = w_thread w.
Proof.
  unfold NextDouble, minipal_xoshiro128pp_next. run.
  cbn [d_mul d_of_Z d_div d_add RealDouble].
  eexists. eexists. split; [reflexivity|].
  pose proof (uniform_of_range _ (uint32_range (w_rng w (w_rngDraws w))))
    as [Hlo Hhi].
  assert (Heq : (IZR (uint32 (w_rng w (w_rngDraws w))) *
                 (1 / (IZR UINT32_MAX + 1)))%R =
                uniform_of (uint32 (w_rng w (w_rngDraws w)))).
  { unfold uniform_of, UINT32_MAX. rewrite pow2_32. lra. }
  rewrite Heq.
  assert (Hpos : (0 < / 2 ^ 32)%R) by (rewrite pow2_32; lra).
  repeat split; try lra; reflexivity.
Qed.

Lemma scaled_log_monotone (v1 v2 : Z) :
  0 <= v1 -> v1 <= v2 -> v2 < 2 ^ 32 ->
  (scaled_log v1 <= scaled_log v2)%R.
Proof.
  intros H0 Hle Hhi.
  pose proof (uniform_of_range v2 ltac:(lia)) as [_ Hu2].
  assert (Hpos : (0 < / 2 ^ 32)%R) by (rewrite pow2_32; lra).
  assert (Hu : (uniform_of v1 <= uniform_of v2)%R).
  { unfold uniform_of. rewrite pow2_32.
    pose proof (IZR_le _ _ Hle). lra. }
  unfold scaled_log.
  assert (Hln : (ln (1 - uniform_of v2) <= ln (1 - uniform_of v1))%R)
    by (apply ln_le_compat; lra).
  lra.
Qed.

Lemma Int_part_monotone (x y : R) : (x <= y)%R -> Int_part x <= Int_part y.
Proof.
  intros Hxy.
  destruct (base_Int_part x) as [Hx _]. destruct (base_Int_part y) as [_ Hy].
  assert (H : (IZR (Int_part x) < IZR (Int_part y + 1))%R)
    by (rewrite plus_IZR; lra).
  apply lt_IZR in H. lia.
Qed.

Lemma scaled_log_zero : scaled_log 0 = 0%R.
Proof.
  unfold scaled_log, uniform_of.
  replace (1 - 0 / 2 ^ 32)%R with 1%R by (rewrite pow2_32; lra).
  rewrite ln_1. lra.
Qed.

(** X5: over the reals, the budget [ComputeGeometricRandom] returns is
    monotone in the generator output: a larger output never gives a smaller
    budget.  The output 0 gives the budget 0, and no output gives a budget
    of 3276800 bytes or more. *)
Theorem ComputeGeometricRandom_monotone (w1 w2 : World)
    (Hle : uint32 (w_rng w1 (w_rngDraws w1)) <=
           uint32 (w_rng w2 (w_rngDraws w2))) :
  exists b1 b2 w1' w2',
    ComputeGeometricRandom (dbl := RealDouble) w1 = Done b1 w1' /\
    ComputeGeometricRandom (dbl := RealDouble) w2 = Done b2 w2' /\
    0 <= b1 /\ b1 <= b2 /\ b2 < 3276800 /\
    (uint32 (w_rng w1 (w_rngDraws w1)) = 0 -> b1 = 0).
Proof.
  destruct (ComputeGeometricRandom_real w1) as (w1' & Hrun1 & _).
  destruct (ComputeGeometricRandom_real w2) as (w2' & Hrun2 & _).
  pose proof (uint32_range (w_rng w1 (w_rngDraws w1))) as Hv1.
  pose proof (uint32_range (w_rng w2 (w_rngDraws w2))) as Hv2.
  eexists _, _, w1', w2'. split; [exact Hrun1|]. split; [exact Hrun2|].
  pose proof (Int_part_bounds _ 3276800 (scaled_log_range _ Hv1)) as Hb1.
  pose proof (Int_part_bounds _ 3276800 (scaled_log_range _ Hv2)) as Hb2.
  split; [lia|]. split.
  - apply Int_part_monotone, scaled_log_monotone; lia.
  - split; [lia|]. intros ->. rewrite scaled_log_zero.
    symmetry. apply Int_part_spec. simpl. lra.
Qed.

Lemma ComputeGeometricRandom_monotone_witness :
  exists b1 b2 w1' w2',
    ComputeGeometricRandom (dbl := RealDouble) sampling_world = Done b1 w1' /\
    ComputeGeometricRandom (dbl := RealDouble)
      (mkWorld 77 (w_thread sampling_world) empty_memory (fun _ => false) 0
         (fun _ => 4000000000) 0 []) = Done b2 w2' /\
    b1 <= b2.
Proof.
  destruct (ComputeGeometricRandom_monotone sampling_world
              (mkWorld 77 (w_thread sampling_world) empty_memory
                 (fun _ => false) 0 (fun _ => 4000000000) 0 []))
    as (b1 & b2 & w1' & w2' & H1 & H2 & _ & Hle & _).
  - change (1 <= 4000000000). lia.
  - exists b1, b2, w1', w2'. auto.
Defined.
